(** * CV-Optima: the resume ingestion pipeline

    A shallow embedding of the text-extraction and ingestion core of the
    repository:

    - [lib/utils/file-validation.ts]  (the Input Validator),
    - [lib/utils/pdf-parser.ts] and [lib/utils/docx-parser.ts]
      (the Format Sniffer, the two Extractors and the Text Normalizer),
    - [app/actions/parse-resume.ts]   (the Ingestion Orchestrator and
      [deleteResume]).

    JavaScript strings are sequences of UTF-16 code units, modelled as
    [list N]; byte buffers are [list N] as well (each element below 256).
    The external collaborators (identity provider, blob store, datastore,
    the pdf-parse and mammoth libraries) are modelled by an explicit
    world state and an environment that fixes the outcome of each call
    the code branches on. *)

From Stdlib Require Import NArith Lia.
From Stdlib Require Import Strings.String Strings.Ascii DecimalString.
From stdpp Require Import base list gmap.

Local Open Scope N_scope.
Local Open Scope list_scope.

(* ===================================================================== *)
(** ** JavaScript strings *)
(* ===================================================================== *)

Module JS.

(** A JavaScript string: its UTF-16 code units. *)
Abbreviation jsstring := (list N).

(** An ASCII literal as a JavaScript string. *)
Definition js (s : string) : jsstring :=
  List.map N_of_ascii (list_ascii_of_string s).

Definition TAB : N := 9.
Definition LF : N := 10.
Definition SP : N := 32.

(** ECMAScript [WhiteSpace] and [LineTerminator] code points, the set
    [String.prototype.trim] strips. *)
Definition isWhiteSpace (c : N) : bool :=
  (c =? 9) || (c =? 10) || (c =? 11) || (c =? 12) || (c =? 13) ||
  (c =? 32) || (c =? 160) || (c =? 5760) ||
  ((8192 <=? c) && (c <=? 8202)) ||
  (c =? 8232) || (c =? 8233) || (c =? 8239) || (c =? 8287) ||
  (c =? 12288) || (c =? 65279).

Fixpoint trimStart (s : jsstring) : jsstring :=
  match s with
  | [] => []
  | c :: s' => if isWhiteSpace c then trimStart s' else s
  end.

Definition trimEnd (s : jsstring) : jsstring := rev (trimStart (rev s)).

(** [s.trim()] *)
Definition trim (s : jsstring) : jsstring := trimEnd (trimStart s).

(** What a pending run of [run] copies of [c] becomes under
    [.replace(/c{k,}/g, rep)]: the replacement when the run is long
    enough, itself otherwise. *)
Definition flushRun (c : N) (k : nat) (rep : jsstring) (run : nat) : jsstring :=
  if (k <=? run)%nat then rep else repeat c run.

(** [s.replace(/c{k,}/g, rep)] for a single code unit [c]: the scan is
    left to right and the quantifier greedy, so every maximal run of at
    least [k] copies of [c] is replaced as a whole. [run] counts the
    copies of [c] seen since the last other code unit. *)
Fixpoint replaceRunsFrom (c : N) (k : nat) (rep : jsstring) (run : nat)
    (s : jsstring) : jsstring :=
  match s with
  | [] => flushRun c k rep run
  | x :: s' =>
      if x =? c then replaceRunsFrom c k rep (S run) s'
      else flushRun c k rep run ++ x :: replaceRunsFrom c k rep 0 s'
  end.

Definition replaceRuns (c : N) (k : nat) (rep : jsstring) (s : jsstring) : jsstring :=
  replaceRunsFrom c k rep 0 s.

(** [s.replace(/c/g, d)] for single code units. *)
Definition replaceChar (c d : N) (s : jsstring) : jsstring :=
  List.map (fun x => if x =? c then d else x) s.

(** [s.split(c)] for a separator of one code unit. *)
Fixpoint splitChar (c : N) (s : jsstring) : list jsstring :=
  match s with
  | [] => [[]]
  | x :: s' =>
      if x =? c then [] :: splitChar c s'
      else match splitChar c s' with
           | l :: ls => (x :: l) :: ls
           | [] => [[x]]
           end
  end.

(** [ls.join(sep)] *)
Fixpoint join (sep : jsstring) (ls : list jsstring) : jsstring :=
  match ls with
  | [] => []
  | [l] => l
  | l :: ls' => l ++ sep ++ join sep ls'
  end.

(** [s.startsWith(p)] *)
Fixpoint startsWith (p s : jsstring) : bool :=
  match p, s with
  | [], _ => true
  | _ :: _, [] => false
  | a :: p', b :: s' => (a =? b) && startsWith p' s'
  end.

(** [s.endsWith(p)] *)
Definition endsWith (p s : jsstring) : bool := startsWith (rev p) (rev s).

(** [s.includes(p)] *)
Fixpoint includes (p s : jsstring) : bool :=
  startsWith p s ||
  match s with
  | [] => false
  | _ :: s' => includes p s'
  end.

(** [s.split(sep)] for a non-empty separator string. [skip] counts the
    code units of a separator occurrence still to be passed over, [cur]
    holds the current piece in reverse. *)
Fixpoint splitFrom (sep : jsstring) (skip : nat) (cur : jsstring)
    (s : jsstring) : list jsstring :=
  match s with
  | [] => [rev cur]
  | x :: s' =>
      match skip with
      | S k => splitFrom sep k cur s'
      | O =>
          if startsWith sep s
          then rev cur :: splitFrom sep (Nat.pred (length sep)) [] s'
          else splitFrom sep 0 (x :: cur) s'
      end
  end.

Definition split (sep : jsstring) (s : jsstring) : list jsstring :=
  splitFrom sep 0 [] s.

(** [s.toLowerCase()] and [s.toUpperCase()] restricted to the ASCII
    letters. This is what the case-insensitive regular expressions of
    the code do, and it decides every test of a lower-cased name against
    ".pdf" or ".docx" as the runtime does, because no other code unit
    lower-cases into a code unit of these suffixes. It is not the
    conversion of arbitrary text: see [CaseTables]. *)
Definition lowerUnit (c : N) : N :=
  if (65 <=? c) && (c <=? 90) then c + 32 else c.

Definition upperUnit (c : N) : N :=
  if (97 <=? c) && (c <=? 122) then c - 32 else c.

Definition toLowerCase (s : jsstring) : jsstring := List.map lowerUnit s.
Definition toUpperCase (s : jsstring) : jsstring := List.map upperUnit s.

(** [String.prototype.toUpperCase] and [toLowerCase] on arbitrary text
    follow the Unicode case tables of the JavaScript runtime, which the
    repository does not contain. Code whose result shows converted text
    takes them as a parameter. *)
Record CaseTables := mkCaseTables {
  upperCase : jsstring -> jsstring;
  lowerCase : jsstring -> jsstring
}.

Definition eqb (a b : jsstring) : bool := bool_decide (a = b).

(** [s.substring(0, n)] *)
Definition substring0 (n : nat) (s : jsstring) : jsstring := take n s.

End JS.

Import JS.

(* ===================================================================== *)
(** ** Byte buffers *)
(* ===================================================================== *)

Module Buffer.

(** A Node [Buffer]: its bytes. *)
Abbreviation buffer := (list N).

(** [buf.slice(0, n)] *)
Definition slice0 (n : nat) (buf : buffer) : buffer := take n buf.

Definition isContinuation (b : N) : bool := (128 <=? b) && (b <=? 191).

(** Lower and upper bound of the byte that may follow lead byte [b0] of
    a three- or four-byte sequence (this excludes overlong forms,
    surrogates and code points above U+10FFFF). *)
Definition secondLow (b0 : N) : N :=
  if b0 =? 224 then 160 else if b0 =? 240 then 144 else 128.

Definition secondHigh (b0 : N) : N :=
  if b0 =? 237 then 159 else if b0 =? 244 then 143 else 191.

Definition isSecond (b0 b1 : N) : bool :=
  (secondLow b0 <=? b1) && (b1 <=? secondHigh b0).

Definition REPLACEMENT : N := 65533.

(** [buf.toString('utf-8')]: UTF-8 decoding into UTF-16 code units, each
    maximal ill-formed subsequence becoming one U+FFFD. *)
Fixpoint toStringUtf8 (buf : buffer) : jsstring :=
  match buf with
  | [] => []
  | b0 :: r0 =>
      if b0 <? 128 then b0 :: toStringUtf8 r0
      else if (194 <=? b0) && (b0 <=? 223) then
        match r0 with
        | b1 :: r1 =>
            if isContinuation b1
            then ((b0 - 192) * 64 + (b1 - 128)) :: toStringUtf8 r1
            else REPLACEMENT :: toStringUtf8 r0
        | [] => [REPLACEMENT]
        end
      else if (224 <=? b0) && (b0 <=? 239) then
        match r0 with
        | b1 :: r1 =>
            if isSecond b0 b1 then
              match r1 with
              | b2 :: r2 =>
                  if isContinuation b2
                  then ((b0 - 224) * 4096 + (b1 - 128) * 64 + (b2 - 128))
                         :: toStringUtf8 r2
                  else REPLACEMENT :: toStringUtf8 r1
              | [] => [REPLACEMENT]
              end
            else REPLACEMENT :: toStringUtf8 r0
        | [] => [REPLACEMENT]
        end
      else if (240 <=? b0) && (b0 <=? 244) then
        match r0 with
        | b1 :: r1 =>
            if isSecond b0 b1 then
              match r1 with
              | b2 :: r2 =>
                  if isContinuation b2 then
                    match r2 with
                    | b3 :: r3 =>
                        if isContinuation b3 then
                          let cp := (b0 - 240) * 262144 + (b1 - 128) * 4096
                                    + (b2 - 128) * 64 + (b3 - 128) in
                          (55296 + (cp - 65536) / 1024)
                            :: (56320 + (cp - 65536) mod 1024)
                            :: toStringUtf8 r3
                        else REPLACEMENT :: toStringUtf8 r2
                    | [] => [REPLACEMENT]
                    end
                  else REPLACEMENT :: toStringUtf8 r1
              | [] => [REPLACEMENT]
              end
            else REPLACEMENT :: toStringUtf8 r0
        | [] => [REPLACEMENT]
        end
      else REPLACEMENT :: toStringUtf8 r0
  end.

End Buffer.

Import Buffer.

(* ===================================================================== *)
(** ** Calls that may throw *)
(* ===================================================================== *)

Module Exn.

(** A thrown value: an [Error] object with its message, or anything
    else ([error instanceof Error] is false). *)
Inductive exn := Error (message : jsstring) | NotAnError.

(** The outcome of awaiting a library call. *)
Inductive attempt (A : Type) :=
  | Returns (a : A)
  | Throws (e : exn).
Arguments Returns {A} a.
Arguments Throws {A} e.

End Exn.

Import Exn.

(* ===================================================================== *)
(** ** PDF Extractor ([lib/utils/pdf-parser.ts]) *)
(* ===================================================================== *)

Module PdfParser.

(** The value of [parser.getText()]. *)
Record TextResult := mkTextResult {
  text_of : jsstring;
  pages_of : list jsstring
}.

(** A [PDFParse] instance of the pdf-parse library over one buffer: what
    each of its methods does when awaited. [info] stands for the raw
    metadata object. *)
Record PDFParse := mkPDFParse {
  getText : attempt TextResult;
  getInfo : attempt jsstring;
  destroy : attempt unit
}.

(** What happens to the parser handle during one extraction:
    [new PDFParse(...)] returned it, [parser.destroy()] was called. *)
Inductive ParserEvent := Acquired | Destroyed.

Record PDFParseResult := mkResult {
  success : bool;
  text : option jsstring;
  error : option jsstring;
  metadata : option (nat * jsstring)
}.

Definition failure (msg : jsstring) : PDFParseResult :=
  mkResult false None (Some msg) None.

Definition EMPTY_INPUT : jsstring := js "PDF buffer is empty".
Definition NO_TEXT : jsstring :=
  js "No text content found in PDF. The file might be image-based or corrupted.".
Definition MALFORMED : jsstring :=
  js "Invalid PDF file. The file may be corrupted or not a valid PDF.".
Definition ENCRYPTED : jsstring :=
  js "PDF is password-protected. Please upload an unprotected file.".
Definition UNKNOWN_ERROR : jsstring :=
  js "An unknown error occurred while parsing the PDF.".
Definition parsingFailed (message : jsstring) : jsstring :=
  js "PDF parsing failed: " ++ message.

(** [cleanText] of [lib/utils/pdf-parser.ts]. *)
Definition cleanText (text : jsstring) : jsstring :=
  trim
    (join [LF]
       (List.map trim
          (splitChar LF
             (replaceRuns LF 3 [LF; LF]
                (replaceRuns SP 2 [SP] text))))).

(** The body of the [try] block runs in an exception monad that also
    records the parser events. *)
Definition Try (A : Type) : Type := list ParserEvent -> attempt A * list ParserEvent.

Definition ret {A} (a : A) : Try A := fun log => (Returns a, log).

Definition bind {A B} (m : Try A) (k : A -> Try B) : Try B :=
  fun log =>
    match m log with
    | (Returns a, log') => k a log'
    | (Throws e, log') => (Throws e, log')
    end.

(** Awaiting a library call. *)
Definition await {A} (call : attempt A) : Try A := fun log => (call, log).

(** Recording an event. *)
Definition emit (ev : ParserEvent) : Try unit := fun log => (Returns tt, log ++ [ev]).

(** [try { body } catch (error) { handler }] *)
Definition tryCatch {A} (body : Try A) (handler : exn -> A) : A * list ParserEvent :=
  match body [] with
  | (Returns a, log) => (a, log)
  | (Throws e, log) => (handler e, log)
  end.

Notation "'let*' x ':=' m 'in' k" := (bind m (fun x => k))
  (at level 10, x name, m at level 100, k at level 200).

(** The [catch] block of [extractTextFromPDF]. *)
Definition onError (e : exn) : PDFParseResult :=
  match e with
  | Error message =>
      if includes (js "Invalid PDF") message then failure MALFORMED
      else if includes (js "password") message then failure ENCRYPTED
      else failure (parsingFailed message)
  | NotAnError => failure UNKNOWN_ERROR
  end.

(** [extractTextFromPDF]; [newPDFParse] stands for the dynamic import of
    pdf-parse followed by [new PDFParse({ data: pdfBuffer })]. The
    result comes with the parser events of the run. *)
Definition extractTextFromPDF (newPDFParse : buffer -> attempt PDFParse)
    (pdfBuffer : buffer) : PDFParseResult * list ParserEvent :=
  tryCatch
    (if (length pdfBuffer =? 0)%nat then ret (failure EMPTY_INPUT)
     else
       let* parser := await (newPDFParse pdfBuffer) in
       let* _ := emit Acquired in
       let* result := await (getText parser) in
       let* info := await (getInfo parser) in
       let* _ := emit Destroyed in
       let* _ := await (destroy parser) in
       if (length (trim (text_of result)) =? 0)%nat then ret (failure NO_TEXT)
       else
         let cleanedText := cleanText (text_of result) in
         ret (mkResult true (Some cleanedText) None
                (Some (length (pages_of result), info))))
    onError.

(** [isValidPDFBuffer]. Nothing in its [try] block can throw on a
    buffer, so the [catch] branch is never taken and the function is
    total. *)
Definition isValidPDFBuffer (buf : buffer) : bool :=
  let header := toStringUtf8 (slice0 5 buf) in
  JS.eqb header (js "%PDF-").

End PdfParser.

(* ===================================================================== *)
(** ** DOCX Extractor ([lib/utils/docx-parser.ts]) *)
(* ===================================================================== *)

Module DocxParser.

Inductive MessageType := error_msg | warning_msg.

(** The value of [mammoth.extractRawText]. *)
Record MammothResult := mkMammoth {
  value : jsstring;
  messages : list (MessageType * jsstring)
}.

Record DOCXParseResult := mkResult {
  success : bool;
  text : option jsstring;
  error : option jsstring;
  metadata : option (option (list jsstring))
}.

Definition failure (msg : jsstring) : DOCXParseResult :=
  mkResult false None (Some msg) None.

Definition EMPTY_INPUT : jsstring := js "DOCX buffer is empty".
Definition NO_TEXT : jsstring :=
  js "No text content found in DOCX. The file might be empty or corrupted.".
Definition MALFORMED : jsstring :=
  js "Invalid DOCX file. The file may be corrupted or not a valid DOCX format.".
Definition MALFORMED_ZIP : jsstring :=
  js "DOCX file structure is invalid. The file may be corrupted.".
Definition UNKNOWN_ERROR : jsstring :=
  js "An unknown error occurred while parsing the DOCX file.".

(** [cleanText] of [lib/utils/docx-parser.ts]. *)
Definition cleanText (text : jsstring) : jsstring :=
  trim
    (join [LF]
       (List.filter (fun line => (0 <? length line)%nat)
          (List.map trim
             (splitChar LF
                (replaceChar TAB SP
                   (replaceRuns LF 3 [LF; LF]
                      (replaceRuns SP 2 [SP] text))))))).

Definition isError (msg : MessageType * jsstring) : bool :=
  match fst msg with error_msg => true | warning_msg => false end.

Definition isWarning (msg : MessageType * jsstring) : bool :=
  match fst msg with warning_msg => true | error_msg => false end.

(** The [catch] block of [extractTextFromDOCX]. *)
Definition onError (e : exn) : DOCXParseResult :=
  match e with
  | Error message =>
      if includes (js "not a valid") message then failure MALFORMED
      else if includes (js "zip") message then failure MALFORMED_ZIP
      else failure (js "DOCX parsing failed: " ++ message)
  | NotAnError => failure UNKNOWN_ERROR
  end.

(** [extractTextFromDOCX]; [extractRawText] stands for
    [mammoth.extractRawText({ buffer })]. *)
Definition extractTextFromDOCX (extractRawText : buffer -> attempt MammothResult)
    (docxBuffer : buffer) : DOCXParseResult :=
  if (length docxBuffer =? 0)%nat then failure EMPTY_INPUT
  else
    match extractRawText docxBuffer with
    | Throws e => onError e
    | Returns result =>
        let hasErrors := existsb isError (messages result) in
        if hasErrors then
          let errorMessages :=
            join (js "; ") (List.map snd (List.filter isError (messages result))) in
          failure (js "DOCX parsing errors: " ++ errorMessages)
        else if (length (trim (value result)) =? 0)%nat then failure NO_TEXT
        else
          let cleanedText := cleanText (value result) in
          let warnings := List.map snd (List.filter isWarning (messages result)) in
          mkResult true (Some cleanedText) None
            (Some (if (0 <? length warnings)%nat then Some warnings else None))
    end.

(** [isValidDOCXBuffer]; [header[i]] past the end is [undefined], which
    equals no number. The [catch] branch is never taken. *)
Definition isValidDOCXBuffer (buf : buffer) : bool :=
  let header := slice0 2 buf in
  bool_decide (header !! 0%nat = Some 80) && bool_decide (header !! 1%nat = Some 75).

End DocxParser.

(* ===================================================================== *)
(** ** Input Validator ([lib/utils/file-validation.ts]) *)
(* ===================================================================== *)

(** A browser [File]: declared name, declared MIME type and content;
    [size] is the byte length of the content. *)
Record File := mkFile {
  name : jsstring;
  type : jsstring;
  content : buffer
}.

Definition size (file : File) : N := N.of_nat (length (content file)).

Module FileValidation.

Definition MAX_FILE_SIZE : N := 10 * 1024 * 1024.

Definition MIME_PDF : jsstring := js "application/pdf".
Definition MIME_DOCX : jsstring :=
  js "application/vnd.openxmlformats-officedocument.wordprocessingml.document".

(** [ALLOWED_FILE_TYPES]: each MIME type with its extensions. *)
Definition ALLOWED_FILE_TYPES : list (jsstring * list jsstring) :=
  [ (MIME_PDF, [js ".pdf"]); (MIME_DOCX, [js ".docx"]) ].

Definition ALLOWED_EXTENSIONS : list jsstring := [js ".pdf"; js ".docx"].

Record ValidationResult := mkValidation {
  valid : bool;
  error : option jsstring
}.

Definition ok : ValidationResult := mkValidation true None.
Definition invalid (msg : jsstring) : ValidationResult := mkValidation false (Some msg).

Definition TYPE_ERROR : jsstring :=
  js "Invalid file type. Only PDF and DOCX files are allowed.".
Definition EXTENSION_ERROR : jsstring :=
  js "Invalid file extension. Only .pdf and .docx files are allowed.".
Definition EMPTY_ERROR : jsstring :=
  js "File is empty. Please upload a valid resume file.".

(** [Object.keys(ALLOWED_FILE_TYPES).includes(t)] *)
Definition isAllowedMime (t : jsstring) : bool :=
  existsb (JS.eqb t) (List.map fst ALLOWED_FILE_TYPES).

Definition validateFileType (file : File) : ValidationResult :=
  let fileType := type file in
  let fileName := toLowerCase (name file) in
  if negb (isAllowedMime fileType) then invalid TYPE_ERROR
  else
    let hasValidExtension :=
      existsb (fun ext => endsWith ext fileName) ALLOWED_EXTENSIONS in
    if negb hasValidExtension then invalid EXTENSION_ERROR
    else ok.

(** Decimal numeral of a natural number. *)
Definition decimal (n : N) : jsstring := js (NilEmpty.string_of_uint (N.to_uint n)).

(** [x.toFixed(2)] for [x = bytes / (1024 * 1024)]: the division by a
    power of two is exact on doubles, and [toFixed] rounds the exact
    value to the nearest hundredth, halves upwards. *)
Definition toFixed2MB (bytes : N) : jsstring :=
  let n := (bytes * 200 + 1048576) / 2097152 in
  let frac := n mod 100 in
  decimal (n / 100) ++ js "." ++
  (if frac <? 10 then js "0" else []) ++ decimal frac.

Definition validateFileSize (file : File) : ValidationResult :=
  if MAX_FILE_SIZE <? size file then
    let sizeMB := toFixed2MB (size file) in
    let maxSizeMB := decimal (MAX_FILE_SIZE / (1024 * 1024)) in
    invalid (js "File size (" ++ sizeMB
             ++ js "MB) exceeds the maximum allowed size of "
             ++ maxSizeMB ++ js "MB.")
  else ok.

Definition validateFileNotEmpty (file : File) : ValidationResult :=
  if size file =? 0 then invalid EMPTY_ERROR else ok.

Definition validateResumeFile (file : File) : ValidationResult :=
  let emptyCheck := validateFileNotEmpty file in
  if negb (valid emptyCheck) then emptyCheck
  else
    let typeCheck := validateFileType file in
    if negb (valid typeCheck) then typeCheck
    else
      let sizeCheck := validateFileSize file in
      if negb (valid sizeCheck) then sizeCheck
      else ok.

(** [getFileExtension]: the part after the last dot of the lower-cased
    name, with the dot, or the empty string when there is no dot. The
    repository calls it from [isPDF] and [isDOCX] only, which compare its
    result with ".pdf" and ".docx"; the lower-casing is therefore the
    ASCII one (see [JS.toLowerCase]), and on a name whose last part holds
    a letter outside ASCII the returned text is that of the runtime only
    up to the case of that letter. *)
Definition getFileExtension (filename : jsstring) : jsstring :=
  let parts := splitChar 46 (toLowerCase filename) in
  if (1 <? length parts)%nat then 46 :: List.last parts [] else [].

Definition isPDF (file : File) : bool :=
  JS.eqb (type file) MIME_PDF || JS.eqb (getFileExtension (name file)) (js ".pdf").

Definition isDOCX (file : File) : bool :=
  JS.eqb (type file) MIME_DOCX || JS.eqb (getFileExtension (name file)) (js ".docx").

End FileValidation.

(* ===================================================================== *)
(** ** Ingestion Orchestrator ([app/actions/parse-resume.ts]) *)
(* ===================================================================== *)

Module ParseResume.

Import FileValidation.

Inductive FileType := pdf | docx.

(** A row of the [resumes] table ([Resume] of [lib/types/database.ts]).
    The two timestamps are assigned by the database and read by none of
    the functions below; they are left out. *)
Record Resume := mkResume {
  id : jsstring;
  user_id : jsstring;
  title : jsstring;
  file_url : jsstring;
  raw_text : option jsstring;
  file_size : option N;
  file_type : option FileType
}.

(** [ResumeInsert]: a row without its [id]. *)
Record ResumeInsert := mkInsert {
  ins_user_id : jsstring;
  ins_title : jsstring;
  ins_file_url : jsstring;
  ins_raw_text : option jsstring;
  ins_file_size : option N;
  ins_file_type : option FileType
}.

(** Requests that change a collaborator's state, as issued by the code. *)
Inductive Call :=
  | StorageUpload (path : jsstring)
  | StorageRemove (paths : list jsstring)
  | DbInsert (row : ResumeInsert)
  | DbDelete (resumeId : jsstring).

(** The state of the two stores the orchestrator writes to: the objects
    of the [resumes] bucket by path, the rows of the [resumes] table by
    id, and the requests issued so far (oldest first). *)
Record World := mkWorld {
  objects : gmap (list N) buffer;
  resumes : gmap (list N) Resume;
  calls : list Call
}.

(** Everything outside the code that decides how one request goes: the
    session, the clock, success or failure of each collaborator call,
    and the case tables of the runtime. A fault carries the [message] of
    the error object returned. *)
Record Env := mkEnv {
  auth_user : option jsstring;
  now_iso : jsstring;
  storage_url : jsstring;
  upload_fault : option jsstring;
  remove_fault : bool;
  insert_fault : option jsstring;
  select_fault : bool;
  delete_fault : option jsstring;
  fresh_id : jsstring;
  newPDFParse : buffer -> attempt PdfParser.PDFParse;
  extractRawText : buffer -> attempt DocxParser.MammothResult;
  case_tables : CaseTables
}.

Definition logCall (c : Call) (w : World) : World :=
  mkWorld (objects w) (resumes w) (calls w ++ [c]).

(** [supabase.storage.from('resumes').upload(path, file, { upsert })]:
    the error message, or the stored path ([data.path]). An object that
    already exists under the path is replaced when [upsert] is set and
    refused otherwise. The [cacheControl] option changes no state. *)
Definition storage_upload (env : Env) (path : jsstring) (file : File)
    (upsert : bool) (w : World) : (jsstring + jsstring) * World :=
  let w := logCall (StorageUpload path) w in
  let stored :=
    mkWorld (<[path := content file]> (objects w)) (resumes w) (calls w) in
  match upload_fault env with
  | Some message => (inl message, w)
  | None =>
      match objects w !! path with
      | Some _ =>
          if upsert then (inr path, stored)
          else (inl (js "The resource already exists"), w)
      | None => (inr path, stored)
      end
  end.

(** [supabase.storage.from('resumes').getPublicUrl(path)] *)
Definition getPublicUrl (env : Env) (path : jsstring) : jsstring :=
  storage_url env ++ js "/object/public/resumes/" ++ path.

(** [supabase.storage.from('resumes').remove(paths)]; every caller
    discards what it returns. *)
Definition storage_remove (env : Env) (paths : list jsstring) (w : World) : World :=
  let w := logCall (StorageRemove paths) w in
  if remove_fault env then w
  else mkWorld (foldr (fun p m => delete p m) (objects w) paths) (resumes w) (calls w).

(** [supabase.from('resumes').insert(row).select().single()] *)
Definition db_insert (env : Env) (row : ResumeInsert) (w : World)
    : (jsstring + Resume) * World :=
  let w := logCall (DbInsert row) w in
  match insert_fault env with
  | Some message => (inl message, w)
  | None =>
      match resumes w !! fresh_id env with
      | Some _ => (inl (js "duplicate key value violates unique constraint"), w)
      | None =>
          let resume :=
            mkResume (fresh_id env) (ins_user_id row) (ins_title row)
              (ins_file_url row) (ins_raw_text row) (ins_file_size row)
              (ins_file_type row) in
          (inr resume, mkWorld (objects w) (<[fresh_id env := resume]> (resumes w)) (calls w))
      end
  end.

(** The policy "Users can view own resumes" of
    [supabase/migrations/002_rls_policies.sql]:
    [FOR SELECT USING (auth.uid() = user_id)]. *)
Definition visibleTo (caller : option jsstring) (resume : Resume) : bool :=
  bool_decide (caller = Some (user_id resume)).

(** [supabase.from('resumes').select(...).eq('id', resumeId).single()]
    through the session's client: the row, or nothing when the read
    fails, no row has the id, or row-level security hides the row from
    the caller. *)
Definition db_select (env : Env) (resumeId : jsstring) (w : World) : option Resume :=
  if select_fault env then None
  else
    match resumes w !! resumeId with
    | Some resume => if visibleTo (auth_user env) resume then Some resume else None
    | None => None
    end.

(** [supabase.from('resumes').delete().eq('id', resumeId)]. The code
    reaches this call only for a row it has been shown and whose owner
    is the caller, so the policy for DELETE lets it through; likewise
    [db_insert] is only given rows whose [user_id] is the caller's. *)
Definition db_delete (env : Env) (resumeId : jsstring) (w : World)
    : option jsstring * World :=
  let w := logCall (DbDelete resumeId) w in
  match delete_fault env with
  | Some message => (Some message, w)
  | None => (None, mkWorld (objects w) (delete resumeId (resumes w)) (calls w))
  end.

Record ParseResumeData := mkData {
  resumeId : jsstring;
  data_title : jsstring;
  fileUrl : jsstring;
  textPreview : jsstring
}.

Record ParseResumeResult := mkResult {
  success : bool;
  error : option jsstring;
  data : option ParseResumeData
}.

Definition failure (msg : option jsstring) : ParseResumeResult :=
  mkResult false msg None.

Definition NO_FILE : jsstring := js "No file provided".
Definition NOT_LOGGED_IN : jsstring := js "You must be logged in to upload a resume".
Definition PERSIST_FAILED : jsstring := js "Failed to save resume to database".
Definition UNSUPPORTED : jsstring := js "Unsupported file type".

Definition isAlnum (c : N) : bool :=
  ((97 <=? c) && (c <=? 122)) || ((65 <=? c) && (c <=? 90)) || ((48 <=? c) && (c <=? 57)).

(** [name.replace(/[^a-zA-Z0-9._-]/g, '_')] *)
Definition safeFilename (name : jsstring) : jsstring :=
  List.map (fun c => if isAlnum c || (c =? 46) || (c =? 95) || (c =? 45) then c else 95) name.

(** [iso.replace(/[:.]/g, '-')] *)
Definition timestampOf (iso : jsstring) : jsstring :=
  List.map (fun c => if (c =? 58) || (c =? 46) then 45 else c) iso.

Definition filePathOf (env : Env) (file : File) (userId : jsstring) : jsstring :=
  userId ++ js "/" ++ timestampOf (now_iso env) ++ js "_" ++ safeFilename (name file).

Record UploadResult := mkUpload {
  up_success : bool;
  up_error : option jsstring;
  filePath : option jsstring;
  up_fileUrl : option jsstring
}.

Definition uploadResumeFile (env : Env) (file : File) (userId : jsstring) (w : World)
    : UploadResult * World :=
  let filePath := filePathOf env file userId in
  match storage_upload env filePath file false w with
  | (inl message, w') =>
      (mkUpload false (Some (js "Failed to upload file: " ++ message)) None None, w')
  | (inr path, w') =>
      let publicUrl := getPublicUrl env filePath in
      (mkUpload true None (Some path) (Some publicUrl), w')
  end.

Record ExtractResult := mkExtract {
  ex_success : bool;
  ex_error : option jsstring;
  ex_text : option jsstring
}.

Definition extractTextFromFile (env : Env) (file : File) : ExtractResult :=
  let arrayBuffer := content file in
  if JS.eqb (type file) MIME_PDF || endsWith (js ".pdf") (toLowerCase (name file)) then
    let result := fst (PdfParser.extractTextFromPDF (newPDFParse env) arrayBuffer) in
    mkExtract (PdfParser.success result) (PdfParser.error result) (PdfParser.text result)
  else if JS.eqb (type file) MIME_DOCX || endsWith (js ".docx") (toLowerCase (name file)) then
    let result := DocxParser.extractTextFromDOCX (extractRawText env) arrayBuffer in
    mkExtract (DocxParser.success result) (DocxParser.error result) (DocxParser.text result)
  else mkExtract false (Some UNSUPPORTED) None.

(** [word.charAt(0).toUpperCase() + word.slice(1).toLowerCase()] *)
Definition capitalize (tables : CaseTables) (word : jsstring) : jsstring :=
  upperCase tables (take 1 word) ++ lowerCase tables (drop 1 word).

(** [filename.replace(/\.(pdf|docx)$/i, '')] *)
Definition stripExtension (filename : jsstring) : jsstring :=
  let lower := toLowerCase filename in
  if endsWith (js ".pdf") lower then take (length filename - 4) filename
  else if endsWith (js ".docx") lower then take (length filename - 5) filename
  else filename.

Definition generateResumeTitle (tables : CaseTables) (filename : jsstring) : jsstring :=
  let nameWithoutExt := stripExtension filename in
  let cleaned :=
    List.map (fun c => if (c =? 95) || (c =? 45) then SP else c) nameWithoutExt in
  let title := join [SP] (List.map (capitalize tables) (splitChar SP cleaned)) in
  if (length title =? 0)%nat then js "Untitled Resume" else title.

(** The form data of a request: [formData.get('file')] and
    [formData.get('title')]. *)
Record FormData := mkForm {
  form_file : option File;
  form_title : option jsstring
}.

(** [x || fallback] on strings: the empty string is falsy. *)
Definition orElse (x : option jsstring) (fallback : jsstring) : jsstring :=
  match x with
  | Some (c :: s) => c :: s
  | _ => fallback
  end.

(** Fields that the code reads with [!] after checking [success]. *)
Definition the (x : option jsstring) : jsstring := default [] x.

(** [parseResume]. Every collaborator call below reports failure in
    its result and the two helpers catch what their own bodies throw,
    so nothing reaches the outer [catch] block. *)
Definition parseResume (env : Env) (formData : FormData) (w : World)
    : ParseResumeResult * World :=
  match form_file formData with
  | None => (failure (Some NO_FILE), w)
  | Some file =>
      let validation := validateResumeFile file in
      if negb (valid validation) then (failure (FileValidation.error validation), w)
      else
        match auth_user env with
        | None => (failure (Some NOT_LOGGED_IN), w)
        | Some userId =>
            let '(uploadResult, w) := uploadResumeFile env file userId w in
            if negb (up_success uploadResult) then (failure (up_error uploadResult), w)
            else
              let extractionResult := extractTextFromFile env file in
              if negb (ex_success extractionResult) then
                let w := storage_remove env [the (filePath uploadResult)] w in
                (failure (ex_error extractionResult), w)
              else
                let fileType := if JS.eqb (type file) MIME_PDF then pdf else docx in
                let resumeTitle :=
                  orElse (form_title formData)
                    (generateResumeTitle (case_tables env) (name file)) in
                let resumeData :=
                  mkInsert userId resumeTitle (the (up_fileUrl uploadResult))
                    (ex_text extractionResult) (Some (size file)) (Some fileType) in
                match db_insert env resumeData w with
                | (inl dbError, w) =>
                    let w := storage_remove env [the (filePath uploadResult)] w in
                    (failure (Some PERSIST_FAILED), w)
                | (inr resume, w) =>
                    (mkResult true None
                       (Some (mkData (id resume) (title resume) (file_url resume)
                                (substring0 500 (the (ex_text extractionResult))
                                 ++ js "..."))),
                     w)
                end
        end
  end.

Record DeleteResult := mkDelete {
  del_success : bool;
  del_error : option jsstring
}.

Definition NOT_FOUND : jsstring := js "Resume not found".
Definition UNAUTHORIZED : jsstring := js "Unauthorized".
Definition DELETE_FAILED : jsstring := js "Failed to delete resume".

(** [extractFilePathFromUrl]; the [userId] argument is unused. *)
Definition extractFilePathFromUrl (url : jsstring) (userId : jsstring) : option jsstring :=
  let parts := split (js "/resumes/") url in
  match parts with
  | [_; part1] => Some part1
  | _ => None
  end.

(** [if (filePath)]: [null] and the empty string are falsy. *)
Definition truthy (p : option jsstring) : bool :=
  match p with
  | Some (_ :: _) => true
  | _ => false
  end.

(** [deleteResume]; as in [parseResume], nothing reaches the outer
    [catch] block. *)
Definition deleteResume (env : Env) (resumeId : jsstring) (w : World)
    : DeleteResult * World :=
  match db_select env resumeId w with
  | None => (mkDelete false (Some NOT_FOUND), w)
  | Some resume =>
      match auth_user env with
      | None => (mkDelete false (Some UNAUTHORIZED), w)
      | Some userId =>
          if negb (JS.eqb userId (user_id resume))
          then (mkDelete false (Some UNAUTHORIZED), w)
          else
            let filePath := extractFilePathFromUrl (file_url resume) userId in
            match db_delete env resumeId w with
            | (Some deleteError, w) => (mkDelete false (Some DELETE_FAILED), w)
            | (None, w) =>
                let w := if truthy filePath
                         then storage_remove env [the filePath] w
                         else w in
                (mkDelete true None, w)
            end
      end
  end.

End ParseResume.

(* ===================================================================== *)
(** ** Storage utilities ([lib/supabase/storage.ts]) *)
(* ===================================================================== *)

Module Storage.

Import FileValidation.

Definition MAX_FILE_SIZE : N := 10 * 1024 * 1024.

Definition TYPE_ERROR : jsstring :=
  js "File type not allowed. Please upload PDF or DOCX files only.".

(** The keys of this module's own [ALLOWED_FILE_TYPES]. *)
Definition ALLOWED_MIME : list jsstring := [MIME_PDF; MIME_DOCX].

(** [validateResumeFile] of the storage utilities: size, then MIME
    type. *)
Definition validateResumeFile (file : File) : ValidationResult :=
  if MAX_FILE_SIZE <? size file then
    invalid (js "File size exceeds " ++ decimal (MAX_FILE_SIZE / 1024 / 1024)
             ++ js "MB limit")
  else if negb (existsb (JS.eqb (type file)) ALLOWED_MIME) then invalid TYPE_ERROR
  else ok.

End Storage.

(* ===================================================================== *)
(** ** Environment check ([lib/supabase/verify-env.ts]) *)
(* ===================================================================== *)

Module VerifyEnv.

Record Results := mkResults {
  hasUrl : bool;
  hasAnonKey : bool;
  urlValid : bool;
  urlFormat : jsstring;
  keyFormat : jsstring;
  allValid : bool
}.

(** Truthiness of an environment variable: set and not empty. *)
Definition isSet (v : option jsstring) : bool :=
  match v with
  | Some (_ :: _) => true
  | _ => false
  end.

(** [verifySupabaseEnv]; the two arguments are the values of
    [NEXT_PUBLIC_SUPABASE_URL] and [NEXT_PUBLIC_SUPABASE_ANON_KEY]. *)
Definition verifySupabaseEnv (supabaseUrl supabaseAnonKey : option jsstring) : Results :=
  let hasUrl := isSet supabaseUrl in
  let hasAnonKey := isSet supabaseAnonKey in
  let url := default [] supabaseUrl in
  let key := default [] supabaseAnonKey in
  let urlValid :=
    if hasUrl then startsWith (js "https://") url && includes (js ".supabase.co") url
    else false in
  let urlFormat := if hasUrl then substring0 30 url ++ js "..." else [] in
  let keyFormat :=
    if hasAnonKey then
      if startsWith (js "eyJ") key then substring0 20 key ++ js "..."
      else js "Invalid format"
    else [] in
  mkResults hasUrl hasAnonKey urlValid urlFormat keyFormat
    (hasUrl && hasAnonKey && urlValid).

Inductive Status := status_success | status_error.

Record StatusMessage := mkStatus {
  status : Status;
  message : jsstring;
  issues : option (list jsstring);
  details : Results
}.

Definition MISSING_URL : jsstring := js "Missing NEXT_PUBLIC_SUPABASE_URL".
Definition MISSING_KEY : jsstring := js "Missing NEXT_PUBLIC_SUPABASE_ANON_KEY".
Definition BAD_URL : jsstring := js "NEXT_PUBLIC_SUPABASE_URL has invalid format".

(** [getEnvStatusMessage]; the two messages open with U+2705 and
    U+274C. *)
Definition getEnvStatusMessage (supabaseUrl supabaseAnonKey : option jsstring)
    : StatusMessage :=
  let results := verifySupabaseEnv supabaseUrl supabaseAnonKey in
  if allValid results then
    mkStatus status_success
      (9989 :: js " All Supabase environment variables are properly configured")
      None results
  else
    let issues :=
      (if negb (hasUrl results) then [MISSING_URL] else []) ++
      (if negb (hasAnonKey results) then [MISSING_KEY] else []) ++
      (if hasUrl results && negb (urlValid results) then [BAD_URL] else []) in
    mkStatus status_error
      (10060 :: js " Supabase environment configuration issues detected")
      (Some issues) results.

End VerifyEnv.

(* ===================================================================== *)
(** ** Reading the specification *)
(* ===================================================================== *)

Module Spec.

Import FileValidation.

(** The classification token of the Format Sniffer. The code has no
    function that returns it; it is read off the two magic-number
    checks of the parsers. *)
Inductive Sniffed := PDF | OWPML_ZIP | UNKNOWN.

Definition sniff (buf : buffer) : Sniffed :=
  if PdfParser.isValidPDFBuffer buf then PDF
  else if DocxParser.isValidDOCXBuffer buf then OWPML_ZIP
  else UNKNOWN.

(** The declared-type check as the specification words it: the MIME
    string and the extension of the lower-cased file name agree with one
    entry of [ALLOWED_FILE_TYPES]. *)
Definition agreesWithAllowedPair (file : File) : bool :=
  existsb
    (fun entry =>
       JS.eqb (type file) (fst entry) &&
       existsb (fun ext => endsWith ext (toLowerCase (name file))) (snd entry))
    ALLOWED_FILE_TYPES.

(** A persisted format tag is consistent with the sniffed bytes when the
    Format Sniffer classifies the buffer as that format. *)
Definition tagConsistent (tag : option ParseResume.FileType) (buf : buffer) : bool :=
  match tag, sniff buf with
  | Some ParseResume.pdf, PDF => true
  | Some ParseResume.docx, OWPML_ZIP => true
  | _, _ => false
  end.

(** The first exception the parser raises during one extraction, in the
    order the extractor awaits its calls. *)
Definition thrownBy (newPDFParse : buffer -> attempt PdfParser.PDFParse)
    (buf : buffer) : option exn :=
  match newPDFParse buf with
  | Throws e => Some e
  | Returns parser =>
      match PdfParser.getText parser, PdfParser.getInfo parser, PdfParser.destroy parser with
      | Throws e, _, _ => Some e
      | Returns _, Throws e, _ => Some e
      | Returns _, Returns _, Throws e => Some e
      | Returns _, Returns _, Returns _ => None
      end
  end.

(** Does the string contain code unit [c]? *)
Definition hasUnit (c : N) (s : jsstring) : bool := existsb (N.eqb c) s.

(** The steps of the normalizer, named. *)
Definition collapseSpaces (s : jsstring) : jsstring := replaceRuns SP 2 [SP] s.
Definition collapseNewlines (s : jsstring) : jsstring := replaceRuns LF 3 [LF; LF] s.
Definition tabsToSpaces (s : jsstring) : jsstring := replaceChar TAB SP s.
Definition trimLines (s : jsstring) : jsstring :=
  trim (join [LF] (List.map trim (splitChar LF s))).
Definition nonEmpty (line : jsstring) : bool := (0 <? length line)%nat.
Definition stripBlankLines (s : jsstring) : jsstring :=
  join [LF] (List.filter nonEmpty (splitChar LF s)).

(** Lines without the empty ones at the front. *)
Fixpoint dropBlank (ls : list jsstring) : list jsstring :=
  match ls with
  | [] :: ls' => dropBlank ls'
  | _ => ls
  end.

(** The lines left once the empty ones at both ends are removed. *)
Definition core (ls : list jsstring) : list jsstring :=
  rev (dropBlank (rev (dropBlank ls))).

(** A string that is empty or starts with a code unit [trim] keeps. *)
Definition startsClean (s : jsstring) : Prop :=
  match s with
  | [] => True
  | c :: _ => isWhiteSpace c = false
  end.

(** A line as [trim] leaves it and [split] on newlines cuts it: clean at
    both ends and free of newlines. *)
Definition tidy (s : jsstring) : Prop :=
  startsClean s /\ startsClean (rev s) /\ Forall (fun c => c <> LF) s.

(** The code units of a string that are not whitespace, in order. *)
Definition visible (s : jsstring) : jsstring :=
  List.filter (fun c => negb (isWhiteSpace c)) s.

(** No two neighbouring code units are both [c]. *)
Fixpoint noDouble (c : N) (s : jsstring) : bool :=
  match s with
  | x :: ((y :: _) as s') => negb ((x =? c) && (y =? c)) && noDouble c s'
  | _ => true
  end.

(** Case tables that never bring code unit [c] into text that does not
    hold it. The Unicode tables are such for every [c] that is not a
    letter. *)
Definition keepsOut (tables : CaseTables) (c : N) : Prop :=
  forall s : jsstring,
    hasUnit c s = false ->
    hasUnit c (upperCase tables s) = false /\
    hasUnit c (lowerCase tables s) = false.

(** The code units a sanitized file name may hold: [a-zA-Z0-9._-]. *)
Definition isSafeUnit (c : N) : bool :=
  ParseResume.isAlnum c || (c =? 46) || (c =? 95) || (c =? 45).

End Spec.

(* ===================================================================== *)
(** ** Sample inputs *)
(* ===================================================================== *)

Module Sample.

Import FileValidation ParseResume.

(** A parser over a document that holds the text "Hello World" on one
    page. *)
Definition helloParser : buffer -> attempt PdfParser.PDFParse :=
  fun _ =>
    Returns (PdfParser.mkPDFParse
               (Returns (PdfParser.mkTextResult (js "Hello World") [js "Hello World"]))
               (Returns (js "{}"))
               (Returns tt)).

(** A parser whose [getText] rejects the document structure. *)
Definition invalidParser : buffer -> attempt PdfParser.PDFParse :=
  fun _ =>
    Returns (PdfParser.mkPDFParse
               (Throws (Error (js "Invalid PDF structure.")))
               (Returns (js "{}"))
               (Returns tt)).

(** A mammoth run that reads "Hello World" and warns about a style. *)
Definition warningMammoth : buffer -> attempt DocxParser.MammothResult :=
  fun _ =>
    Returns (DocxParser.mkMammoth (js "Hello World")
               [(DocxParser.warning_msg, js "Unrecognised paragraph style")]).

Definition noMammoth : buffer -> attempt DocxParser.MammothResult :=
  fun _ => Throws (Error (js "Can't find end of central directory : is this a zip file ?")).

(** Case tables that convert the ASCII letters and nothing else. *)
Definition asciiTables : CaseTables := mkCaseTables toUpperCase toLowerCase.

Definition alice : jsstring := js "user-a".
Definition bob : jsstring := js "user-b".

(** A session of [user]; every collaborator call succeeds. *)
Definition envOf (user : jsstring) : Env :=
  mkEnv (Some user) (js "2026-01-09T10:20:30.123Z")
    (js "https://cv.supabase.co/storage/v1")
    None false None false None (js "resume-1")
    helloParser noMammoth asciiTables.

(** The same session against a datastore that rejects the insert. *)
Definition envInsertFails (user : jsstring) : Env :=
  mkEnv (Some user) (js "2026-01-09T10:20:30.123Z")
    (js "https://cv.supabase.co/storage/v1")
    None false (Some (js "relation resumes does not exist")) false None
    (js "resume-1") helloParser noMammoth asciiTables.

(** A datastore that rejects the insert and a blob store that fails to
    carry out the delete that follows. *)
Definition envRollbackFails (user : jsstring) : Env :=
  mkEnv (Some user) (js "2026-01-09T10:20:30.123Z")
    (js "https://cv.supabase.co/storage/v1")
    None true (Some (js "relation resumes does not exist")) false None
    (js "resume-1") helloParser noMammoth asciiTables.

(** The same session against a datastore that refuses to delete. *)
Definition envDeleteFails (user : jsstring) : Env :=
  mkEnv (Some user) (js "2026-01-09T10:20:30.123Z")
    (js "https://cv.supabase.co/storage/v1")
    None false None false (Some (js "permission denied for table resumes"))
    (js "resume-1") helloParser noMammoth asciiTables.

Definition emptyWorld : World := mkWorld ∅ ∅ [].

Definition pdfBytes : buffer := js "%PDF-1.7 Hello World".

(** A well-formed upload. *)
Definition resumePdf : File := mkFile (js "john_doe_resume_2024.pdf") MIME_PDF pdfBytes.

(** A PDF document whose declared MIME type is the DOCX one. *)
Definition mislabelled : File := mkFile (js "cv.pdf") MIME_DOCX pdfBytes.

(** A declared PDF whose header is preceded by a line feed. *)
Definition shiftedPdf : File := mkFile (js "cv.pdf") MIME_PDF (LF :: pdfBytes).

Definition alicePath : jsstring := js "user-a/2026-01-09T10-20-30-123Z_john_doe_resume_2024.pdf".

(** Alice's stored resume, with the locator the orchestrator writes. *)
Definition aliceRow : Resume :=
  mkResume (js "resume-1") alice (js "John Doe Resume 2024")
    (js "https://cv.supabase.co/storage/v1/object/public/resumes/" ++ alicePath)
    (Some (js "Hello World")) (Some 20) (Some pdf).

(** A row of Alice's whose locator does not name the bucket. *)
Definition strayRow : Resume :=
  mkResume (js "resume-2") alice (js "Old Resume")
    (js "https://cdn.example.com/files/old.pdf")
    (Some (js "Hello World")) (Some 20) (Some pdf).

Definition aliceWorld : World :=
  mkWorld (<[alicePath := pdfBytes]> ∅)
          (<[js "resume-2" := strayRow]> (<[js "resume-1" := aliceRow]> ∅)) [].

End Sample.

(* ===================================================================== *)
(** ** The model on the scenarios of the specification *)
(* ===================================================================== *)

Example pdf_clean_ex :
  PdfParser.cleanText (js "  a   b " ++ [LF; LF; LF; LF] ++ js " c  ")
  = js "a b" ++ [LF; LF] ++ js "c".
Proof. reflexivity. Qed.

Example sniff_ex : Spec.sniff (js "%PDF-1.7") = Spec.PDF /\ Spec.sniff (js "PK") = Spec.OWPML_ZIP
   /\ Spec.sniff [37;80;68;70] = Spec.UNKNOWN /\ Spec.sniff [226; 130; 172] = Spec.UNKNOWN.
Proof. repeat split; vm_compute; reflexivity. Qed.

Example toFixed_ex : FileValidation.toFixed2MB 11000000 = js "10.49".
Proof. vm_compute. reflexivity. Qed.

Example validate_ex :
  FileValidation.validateFileType (mkFile (js "cv.DOCX") FileValidation.MIME_PDF [1]) = FileValidation.ok.
Proof. vm_compute. reflexivity. Qed.

Example title_ex :
  ParseResume.generateResumeTitle Sample.asciiTables (js "john_doe_resume_2024.pdf")
  = js "John Doe Resume 2024".
Proof. vm_compute. reflexivity. Qed.

Example path_ex :
  ParseResume.filePathOf (Sample.envOf Sample.alice) Sample.resumePdf Sample.alice
  = Sample.alicePath.
Proof. vm_compute. reflexivity. Qed.

Example split_ex :
  split (js "/resumes/") (ParseResume.file_url Sample.aliceRow)
  = [js "https://cv.supabase.co/storage/v1/object/public"; Sample.alicePath].
Proof. vm_compute. reflexivity. Qed.

(* ===================================================================== *)
(** ** Format Sniffer on short buffers *)
(* ===================================================================== *)

Section Sniffer.

(** Decoding never yields more code units than there are bytes. *)
Lemma toStringUtf8_length_le (n : nat) :
  forall buf : buffer, (length buf <= n)%nat ->
    (length (toStringUtf8 buf) <= length buf)%nat.
Proof.
  induction n as [|n IH]; intros [|b0 r0] Hn; try (simpl in *; lia).
  cbn [length] in *. cbn [toStringUtf8].
  pose proof (IH r0 ltac:(lia)) as H0.
  repeat match goal with
         | |- context [if ?b then _ else _] => destruct b
         | |- context [match ?r with [] => _ | _ :: _ => _ end] =>
             is_var r;
             pose proof (IH r ltac:(cbn [length] in *; lia));
             destruct r; cbn [length] in *
         end;
    cbn [length] in *; try lia.
  all: match goal with
       | |- context [toStringUtf8 ?r] => pose proof (IH r ltac:(lia))
       end; lia.
Qed.

Lemma isValidPDFBuffer_short (buf : buffer) :
  (length buf < 5)%nat -> PdfParser.isValidPDFBuffer buf = false.
Proof.
  intros Hlen. unfold PdfParser.isValidPDFBuffer, JS.eqb.
  apply bool_decide_eq_false. intros Heq.
  assert (Hfive : length (toStringUtf8 (slice0 5 buf)) = 5%nat)
    by (rewrite Heq; reflexivity).
  pose proof (toStringUtf8_length_le _ (slice0 5 buf) (le_n _)) as Hle.
  unfold slice0 in *. rewrite length_take in Hle. lia.
Qed.

Lemma isValidDOCXBuffer_true (buf : buffer) :
  DocxParser.isValidDOCXBuffer buf = true <-> exists rest, buf = 80 :: 75 :: rest.
Proof.
  unfold DocxParser.isValidDOCXBuffer, slice0. split.
  - intros H. apply andb_true_iff in H as [H0 H1].
    apply bool_decide_eq_true in H0, H1.
    destruct buf as [|b0 [|b1 rest]]; simpl in *; try discriminate.
    injection H0 as ->. injection H1 as ->. by exists rest.
  - intros [rest ->]. reflexivity.
Qed.

End Sniffer.

(** C6, as amended. A buffer shorter than five bytes is never taken for
    a PDF; it is taken for a DOCX package exactly when it starts with
    the two bytes "PK", so the Format Sniffer answers UNKNOWN for every
    buffer shorter than two bytes. Both checks are total functions:
    neither throws. *)
Theorem sniff_short_buffer (buf : buffer) :
  (length buf < 5)%nat ->
  PdfParser.isValidPDFBuffer buf = false /\
  (DocxParser.isValidDOCXBuffer buf = true <-> exists rest, buf = 80 :: 75 :: rest) /\
  ((length buf < 2)%nat -> Spec.sniff buf = Spec.UNKNOWN).
Proof.
  intros Hlen. split; [by apply isValidPDFBuffer_short|].
  split; [apply isValidDOCXBuffer_true|].
  intros Hshort. unfold Spec.sniff.
  rewrite isValidPDFBuffer_short by done.
  destruct (DocxParser.isValidDOCXBuffer buf) eqn:Hdocx; [|done].
  apply isValidDOCXBuffer_true in Hdocx as [rest ->]. simpl in Hshort. lia.
Qed.

Lemma sniff_short_buffer_witness :
  PdfParser.isValidPDFBuffer [37; 80; 68; 70] = false /\ Spec.sniff [80] = Spec.UNKNOWN.
Proof.
  split.
  - apply (sniff_short_buffer [37; 80; 68; 70]). simpl. lia.
  - apply (sniff_short_buffer [80]); simpl; lia.
Defined.

(** C6, as stated, fails on the two-byte buffer "PK": it is shorter than
    five bytes and [isValidDOCXBuffer] accepts it. *)
Lemma sniff_short_buffer_counterexample :
  (length [80; 75] < 5)%nat /\
  DocxParser.isValidDOCXBuffer [80; 75] = true /\
  Spec.sniff [80; 75] = Spec.OWPML_ZIP.
Proof. split; [simpl; lia|]. split; reflexivity. Qed.

(* ===================================================================== *)
(** ** Input Validator: the declared-type check *)
(* ===================================================================== *)

Section DeclaredType.

Import FileValidation.

Lemma isAllowedMime_iff (t : jsstring) :
  isAllowedMime t = true <-> t = MIME_PDF \/ t = MIME_DOCX.
Proof.
  unfold isAllowedMime, ALLOWED_FILE_TYPES, JS.eqb.
  cbn [List.map fst existsb].
  rewrite !orb_true_iff, !bool_decide_eq_true. intuition discriminate.
Qed.

(** The verdict as a boolean formula over the two independent checks. *)
Lemma validateFileType_valid (file : File) :
  valid (validateFileType file) =
    isAllowedMime (type file) &&
    (endsWith (js ".pdf") (toLowerCase (name file))
     || endsWith (js ".docx") (toLowerCase (name file))).
Proof.
  unfold validateFileType, ALLOWED_EXTENSIONS. cbn [existsb].
  rewrite orb_false_r.
  destruct (isAllowedMime (type file)); [|reflexivity].
  destruct (endsWith _ _ || endsWith _ _); reflexivity.
Qed.

Lemma validateFileType_error (file : File) :
  error (validateFileType file) =
    if valid (validateFileType file) then None
    else if isAllowedMime (type file) then Some EXTENSION_ERROR
    else Some TYPE_ERROR.
Proof.
  unfold validateFileType.
  destruct (isAllowedMime (type file)); [|reflexivity].
  destruct (existsb _ _); reflexivity.
Qed.

Lemma agreesWithAllowedPair_valid (file : File) :
  Spec.agreesWithAllowedPair file = true -> valid (validateFileType file) = true.
Proof.
  rewrite validateFileType_valid.
  unfold Spec.agreesWithAllowedPair, ALLOWED_FILE_TYPES.
  cbn [existsb fst snd]. rewrite !orb_false_r.
  rewrite orb_true_iff, !andb_true_iff, orb_true_iff.
  intros [[Hm He]|[Hm He]]; apply bool_decide_eq_true in Hm;
    (split; [apply isAllowedMime_iff; auto | auto]).
Qed.

(** C5, as amended. [validateFileType] checks the MIME string and the
    extension independently: it succeeds exactly when the MIME string is
    one of the two allowed ones and the lower-cased name ends in one of
    the two allowed extensions, whether or not the two belong to the
    same pair. An unknown MIME string fails with the message naming PDF
    and DOCX; a known one with a wrong extension fails with the message
    naming .pdf and .docx. Every allowed pair passes. *)
Theorem validateFileType_independent_checks (file : File) :
  let lower := toLowerCase (name file) in
  let result := validateFileType file in
  (valid result = true <->
     (type file = MIME_PDF \/ type file = MIME_DOCX) /\
     (endsWith (js ".pdf") lower = true \/ endsWith (js ".docx") lower = true)) /\
  error result =
    (if valid result then None
     else if isAllowedMime (type file) then Some EXTENSION_ERROR
     else Some TYPE_ERROR) /\
  implb (Spec.agreesWithAllowedPair file) (valid result) = true.
Proof.
  intros lower result. subst lower result. split; [|split].
  - rewrite validateFileType_valid, andb_true_iff, orb_true_iff.
    by rewrite isAllowedMime_iff.
  - apply validateFileType_error.
  - destruct (Spec.agreesWithAllowedPair file) eqn:Hagree; [|reflexivity].
    apply agreesWithAllowedPair_valid in Hagree. by rewrite Hagree.
Qed.

(** C5, as stated, fails on a file declared [application/pdf] and named
    [cv.docx]: the two agree with no allowed pair, and the check passes. *)
Lemma validateFileType_counterexample :
  let file := mkFile (js "cv.docx") MIME_PDF [1] in
  Spec.agreesWithAllowedPair file = false /\
  validateFileType file = ok.
Proof. split; vm_compute; reflexivity. Qed.

End DeclaredType.

(* ===================================================================== *)
(** ** Text Normalizer *)
(* ===================================================================== *)

(** C2. Neither [cleanText] is idempotent. On the PDF path a line that
    holds only a space becomes empty after the newline runs have been
    collapsed, which leaves three newlines in a row; a second pass
    collapses them. On the DOCX path two tabs become two spaces after
    the space runs have been collapsed; a second pass collapses them. *)
Theorem cleanText_not_idempotent :
  let x := js "a" ++ [LF; SP; LF; LF] ++ js "b" in
  let y := js "a" ++ [TAB; TAB] ++ js "b" in
  PdfParser.cleanText x = js "a" ++ [LF; LF; LF] ++ js "b" /\
  PdfParser.cleanText (PdfParser.cleanText x) = js "a" ++ [LF; LF] ++ js "b" /\
  DocxParser.cleanText y = js "a  b" /\
  DocxParser.cleanText (DocxParser.cleanText y) = js "a b".
Proof. repeat split; vm_compute; reflexivity. Qed.

(* ===================================================================== *)
(** ** PDF Extractor: the parser handle *)
(* ===================================================================== *)

(** C7. When [getText] throws, control passes to the [catch] block and
    [parser.destroy()] is never called: the handle was acquired and the
    run ends without releasing it. *)
Theorem extractTextFromPDF_leaks_on_throw :
  PdfParser.extractTextFromPDF Sample.invalidParser Sample.pdfBytes
  = (PdfParser.failure PdfParser.MALFORMED, [PdfParser.Acquired]).
Proof. vm_compute. reflexivity. Qed.

(** The same for every parser and every non-empty buffer: a throw of
    [getText] ends the run with the handle acquired and not released. *)
Lemma extractTextFromPDF_getText_throws
    (newPDFParse : buffer -> attempt PdfParser.PDFParse) (buf : buffer)
    (parser : PdfParser.PDFParse) (e : exn) :
  buf <> [] ->
  newPDFParse buf = Returns parser ->
  PdfParser.getText parser = Throws e ->
  PdfParser.extractTextFromPDF newPDFParse buf
  = (PdfParser.onError e, [PdfParser.Acquired]).
Proof.
  intros Hbuf Hnew Hthrow. destruct buf as [|b buf]; [done|].
  unfold PdfParser.extractTextFromPDF, PdfParser.tryCatch, PdfParser.bind,
    PdfParser.await, PdfParser.emit.
  cbn [length Nat.eqb]. by rewrite Hnew, Hthrow.
Qed.

(** On the path where every parser call returns, the handle is released. *)
Lemma extractTextFromPDF_releases_on_return :
  snd (PdfParser.extractTextFromPDF Sample.helloParser Sample.pdfBytes)
  = [PdfParser.Acquired; PdfParser.Destroyed].
Proof. vm_compute. reflexivity. Qed.

(* ===================================================================== *)
(** ** PDF Extractor: failure classes *)
(* ===================================================================== *)

Section PdfFailures.

Import PdfParser.

(** The [catch] block answers MALFORMED for exactly one kind of thrown
    value. *)
Lemma onError_malformed (e : exn) :
  onError e = failure MALFORMED <->
  exists message, e = Error message /\ includes (js "Invalid PDF") message = true.
Proof.
  destruct e as [message|]; unfold onError.
  - destruct (includes (js "Invalid PDF") message) eqn:Hinvalid.
    + split; [by exists message | done].
    + split.
      * destruct (includes (js "password") message); intros H; cbv in H; discriminate.
      * intros (m & [= <-] & Hm). congruence.
  - split; [intros H; cbv in H; discriminate | intros (m & Hm & _); discriminate].
Qed.

(** What the [catch] block answers to a thrown value that is not of
    that kind. *)
Lemma onError_other (e : exn) :
  match e with
  | Error message =>
      includes (js "Invalid PDF") message = false ->
      onError e = failure ENCRYPTED \/ onError e = failure (parsingFailed message)
  | NotAnError => onError e = failure UNKNOWN_ERROR
  end.
Proof.
  destruct e as [message|]; [|reflexivity]. intros Hno. unfold onError.
  rewrite Hno. destruct (includes (js "password") message); [by left | by right].
Qed.

(** The extractor's answer in terms of what the parser did. *)
Lemma extractTextFromPDF_thrown
    (newPDFParse : buffer -> attempt PDFParse) (buf : buffer) :
  buf <> [] ->
  match Spec.thrownBy newPDFParse buf with
  | Some e => fst (extractTextFromPDF newPDFParse buf) = onError e
  | None =>
      fst (extractTextFromPDF newPDFParse buf) = failure NO_TEXT \/
      success (fst (extractTextFromPDF newPDFParse buf)) = true
  end.
Proof.
  intros Hbuf. destruct buf as [|b buf]; [done|].
  unfold extractTextFromPDF, Spec.thrownBy, tryCatch, bind, await, emit, ret.
  cbn [length Nat.eqb].
  destruct (newPDFParse (b :: buf)) as [parser|e]; [|reflexivity].
  destruct (getText parser) as [result|e]; [|reflexivity].
  destruct (getInfo parser) as [info|e]; [|reflexivity].
  destruct (destroy parser) as [[]|e]; [|reflexivity].
  destruct (length (trim (text_of result)) =? 0)%nat; [by left | by right].
Qed.

(** C4, as amended. [extractTextFromPDF] has no magic-number check: a
    non-empty buffer goes to the parser whatever its leading bytes, and
    what the parser does decides the outcome. The outcome is the
    MALFORMED failure exactly when the parser throws an [Error] whose
    message contains "Invalid PDF". Any other [Error] gives the
    ENCRYPTED failure or the generic "PDF parsing failed" one, a thrown
    value that is no [Error] gives the generic unknown-error failure,
    and a parser that reads the document gives NO_TEXT or success. *)
Theorem extractTextFromPDF_malformed_iff
    (newPDFParse : buffer -> attempt PDFParse) (buf : buffer) :
  let outcome := fst (extractTextFromPDF newPDFParse buf) in
  (outcome = failure MALFORMED <->
     buf <> [] /\
     exists message,
       Spec.thrownBy newPDFParse buf = Some (Error message) /\
       includes (js "Invalid PDF") message = true) /\
  (buf <> [] ->
     match Spec.thrownBy newPDFParse buf with
     | Some (Error message) =>
         includes (js "Invalid PDF") message = false ->
         outcome = failure ENCRYPTED \/ outcome = failure (parsingFailed message)
     | Some NotAnError => outcome = failure UNKNOWN_ERROR
     | None => outcome = failure NO_TEXT \/ success outcome = true
     end).
Proof.
  intros outcome. subst outcome. split.
  - destruct buf as [|b buf].
    { split; [intros H; cbv in H; discriminate | intros [? _]; done]. }
    pose proof (extractTextFromPDF_thrown newPDFParse (b :: buf) ltac:(done)) as Hrun.
    destruct (Spec.thrownBy newPDFParse (b :: buf)) as [e|].
    + rewrite Hrun, onError_malformed. split.
      * intros (m & -> & Hm). split; [done|]. by exists m.
      * intros (_ & m & [= ->] & Hm). by exists m.
    + split; [|intros (_ & m & Hm & _); discriminate].
      intros H. rewrite H in Hrun.
      destruct Hrun as [Hrun|Hrun]; cbv in Hrun; discriminate.
  - intros Hbuf.
    pose proof (extractTextFromPDF_thrown newPDFParse buf Hbuf) as Hrun.
    destruct (Spec.thrownBy newPDFParse buf) as [e|]; [|exact Hrun].
    rewrite Hrun. apply (onError_other e).
Qed.

Lemma extractTextFromPDF_malformed_witness :
  fst (extractTextFromPDF Sample.invalidParser Sample.pdfBytes) = failure MALFORMED /\
  (fst (extractTextFromPDF Sample.helloParser Sample.pdfBytes) = failure NO_TEXT \/
   success (fst (extractTextFromPDF Sample.helloParser Sample.pdfBytes)) = true).
Proof.
  split.
  - apply (extractTextFromPDF_malformed_iff Sample.invalidParser Sample.pdfBytes).
    split; [vm_compute; discriminate|].
    exists (js "Invalid PDF structure."). split; vm_compute; reflexivity.
  - apply (proj2 (extractTextFromPDF_malformed_iff Sample.helloParser Sample.pdfBytes)).
    vm_compute. discriminate.
Defined.

(** C4, as stated, fails on a declared PDF whose header is preceded by a
    line feed: the bytes do not start with "%PDF-", the file passes the
    Input Validator, the bytes reach the parser, which finds the header
    and reads the document, and the extractor reports success instead of
    a failure. *)
Lemma extractTextFromPDF_counterexample :
  FileValidation.valid (FileValidation.validateResumeFile Sample.shiftedPdf) = true /\
  startsWith (js "%PDF-") (content Sample.shiftedPdf) = false /\
  isValidPDFBuffer (content Sample.shiftedPdf) = false /\
  success (fst (extractTextFromPDF Sample.helloParser (content Sample.shiftedPdf))) = true.
Proof. repeat split; vm_compute; reflexivity. Qed.

End PdfFailures.

(* ===================================================================== *)
(** ** Ingestion Orchestrator *)
(* ===================================================================== *)

Section Orchestrator.

Import FileValidation ParseResume.

(** A separator that does not occur splits nothing. *)
Lemma splitFrom_absent (sep : jsstring) :
  forall (s cur : jsstring),
    includes sep s = false -> splitFrom sep 0 cur s = [rev cur ++ s].
Proof.
  induction s as [|x s IH]; intros cur Hno.
  - cbn [splitFrom]. by rewrite app_nil_r.
  - cbn [includes] in Hno. apply orb_false_iff in Hno as [Hhere Hlater].
    cbn [splitFrom]. rewrite Hhere, IH by done.
    cbn [rev]. by rewrite <- app_assoc.
Qed.

Lemma extractFilePathFromUrl_absent (url userId : jsstring) :
  includes (js "/resumes/") url = false ->
  extractFilePathFromUrl url userId = None.
Proof.
  intros Hno. unfold extractFilePathFromUrl, split.
  by rewrite splitFrom_absent.
Qed.

(** A successful upload: the object is stored under the generated path
    and nothing else changes. *)
Lemma uploadResumeFile_success (env : Env) (file : File) (userId : jsstring) (w : World) :
  let path := filePathOf env file userId in
  upload_fault env = None ->
  objects w !! path = None ->
  uploadResumeFile env file userId w =
    (mkUpload true None (Some path) (Some (getPublicUrl env path)),
     mkWorld (<[path := content file]> (objects w)) (resumes w)
             (calls w ++ [StorageUpload path])).
Proof.
  intros path Hfault Hfree. unfold uploadResumeFile, storage_upload, logCall.
  fold path. cbn [objects resumes calls]. by rewrite Hfault, Hfree.
Qed.

(** Whatever the upload does, it leaves the table alone; when it
    succeeds it reports the path it was given. *)
Lemma uploadResumeFile_resumes (env : Env) (file : File) (userId : jsstring) (w : World) :
  resumes (snd (uploadResumeFile env file userId w)) = resumes w.
Proof.
  unfold uploadResumeFile, storage_upload, logCall. cbn [objects resumes calls].
  destruct (upload_fault env); [reflexivity|].
  destruct (objects w !! _); reflexivity.
Qed.

(** An accepted insert writes the row it was given under the fresh id. *)
Lemma db_insert_accepted (env : Env) (row : ResumeInsert) (w w' : World) (resume : Resume) :
  db_insert env row w = (inr resume, w') ->
  resumes w !! fresh_id env = None /\
  resumes w' !! fresh_id env = Some resume /\
  file_type resume = ins_file_type row /\
  user_id resume = ins_user_id row.
Proof.
  unfold db_insert, logCall. cbn [objects resumes calls].
  destruct (insert_fault env); [discriminate|].
  destruct (resumes w !! fresh_id env) eqn:Hfresh; [discriminate|].
  intros [= <- <-]. cbn [resumes file_type user_id].
  by rewrite lookup_insert_eq.
Qed.

(** C3, as amended. The format tag of a row created by a successful
    ingestion is computed from the declared MIME type alone: "pdf" when
    the type is [application/pdf], "docx" otherwise. The bytes of the
    upload are not consulted. *)
Theorem parseResume_format_tag_from_declared_type
    (env : Env) (formData : FormData) (w : World) :
  success (fst (parseResume env formData w)) = true ->
  exists file row,
    form_file formData = Some file /\
    resumes w !! fresh_id env = None /\
    resumes (snd (parseResume env formData w)) !! fresh_id env = Some row /\
    file_type row = Some (if JS.eqb (type file) MIME_PDF then pdf else docx).
Proof.
  unfold parseResume.
  destruct (form_file formData) as [file|]; [|discriminate].
  destruct (valid (validateResumeFile file)); cbn [negb]; [|discriminate].
  destruct (auth_user env) as [userId|]; [|discriminate].
  pose proof (uploadResumeFile_resumes env file userId w) as Htable.
  destruct (uploadResumeFile env file userId w) as [uploadResult w1].
  cbn [snd] in Htable.
  destruct (up_success uploadResult); cbn [negb]; [|discriminate].
  destruct (ex_success (extractTextFromFile env file)); cbn [negb]; [|discriminate].
  match goal with
  | |- context [db_insert env ?r w1] =>
      destruct (db_insert env r w1) as [[dbError|resume] w2] eqn:Hinsert
  end; [discriminate|].
  intros _. apply db_insert_accepted in Hinsert as (Hfresh & Hrow & Htag & _).
  exists file, resume. cbn [snd]. rewrite <- Htable. by repeat split.
Qed.

Lemma parseResume_format_tag_witness :
  exists file row,
    Some Sample.resumePdf = Some file /\
    (∅ : gmap (list N) Resume) !! js "resume-1" = None /\
    resumes (snd (parseResume (Sample.envOf Sample.alice)
                    (mkForm (Some Sample.resumePdf) None) Sample.emptyWorld))
      !! js "resume-1" = Some row /\
    file_type row = Some (if JS.eqb (type file) MIME_PDF then pdf else docx).
Proof.
  apply (parseResume_format_tag_from_declared_type (Sample.envOf Sample.alice)
           (mkForm (Some Sample.resumePdf) None) Sample.emptyWorld).
  vm_compute. reflexivity.
Defined.

(** C3, as stated, fails on a PDF document uploaded as [cv.pdf] with the
    DOCX MIME type: both declared-type checks pass, the name routes it
    to the PDF Extractor, the ingestion succeeds, and the row is tagged
    "docx" although the sniffed bytes are those of a PDF. *)
Lemma parseResume_format_tag_counterexample :
  let run := parseResume (Sample.envOf Sample.alice)
               (mkForm (Some Sample.mislabelled) None) Sample.emptyWorld in
  success (fst run) = true /\
  file_type <$> (resumes (snd run) !! js "resume-1") = Some (Some docx) /\
  Spec.sniff (content Sample.mislabelled) = Spec.PDF /\
  Spec.tagConsistent (Some docx) (content Sample.mislabelled) = false.
Proof. repeat split; vm_compute; reflexivity. Qed.

(** C1, as amended. When validation, sign-in, upload and extraction
    have succeeded and the datastore rejects the insert, for whatever
    reason it gives, [parseResume] issues a delete of the blob at the
    generated path as its last request and returns the generic
    persistence message; the table is unchanged. What the delete returns
    is discarded: when the blob store carries it out, no blob exists at
    the path afterwards and the bucket is as it was before the request;
    when the blob store fails to, the blob stays where it was uploaded
    and the caller gets the same answer. *)
Theorem parseResume_rolls_back_on_persist_failure
    (env : Env) (file : File) (formTitle : option jsstring)
    (userId : jsstring) (w : World) :
  let path := filePathOf env file userId in
  let run := parseResume env (mkForm (Some file) formTitle) w in
  valid (validateResumeFile file) = true ->
  auth_user env = Some userId ->
  upload_fault env = None ->
  objects w !! path = None ->
  ex_success (extractTextFromFile env file) = true ->
  is_Some (insert_fault env) \/ is_Some (resumes w !! fresh_id env) ->
  fst run = failure (Some PERSIST_FAILED) /\
  (exists row,
     calls (snd run) = calls w ++ [StorageUpload path; DbInsert row; StorageRemove [path]]) /\
  resumes (snd run) = resumes w /\
  (remove_fault env = false ->
     objects (snd run) !! path = None /\ objects (snd run) = objects w) /\
  (remove_fault env = true ->
     objects (snd run) !! path = Some (content file)).
Proof.
  intros path run Hvalid Hauth Hupload Hfree Hextract Hinsert.
  subst run. unfold parseResume. cbn [form_file form_title].
  rewrite Hvalid, Hauth. cbn [negb].
  rewrite uploadResumeFile_success by done. fold path.
  cbn [up_success negb filePath up_fileUrl the default].
  rewrite Hextract. cbn [negb].
  match goal with
  | |- context [db_insert env ?r ?w1] =>
      assert (Hrejected : exists dbError,
                 db_insert env r w1 = (inl dbError, logCall (DbInsert r) w1))
  end.
  { unfold db_insert, logCall. cbn [objects resumes calls].
    destruct (insert_fault env) as [m|]; [by eexists|].
    destruct Hinsert as [[m Hm]|[r Hr]]; [discriminate|].
    rewrite Hr. by eexists. }
  destruct Hrejected as [dbError ->].
  unfold storage_remove, logCall. cbn [objects resumes calls fst snd foldr].
  split; [reflexivity|]. split; [|split; [|split]].
  - eexists. destruct (remove_fault env); cbn [calls];
      rewrite <- !app_assoc; reflexivity.
  - by destruct (remove_fault env).
  - intros ->. cbn [objects]. split.
    + apply lookup_delete_eq.
    + by rewrite delete_insert_eq, delete_id.
  - intros ->. cbn [objects]. apply lookup_insert_eq.
Qed.

Lemma parseResume_rolls_back_witness :
  fst (parseResume (Sample.envInsertFails Sample.alice)
         (mkForm (Some Sample.resumePdf) None) Sample.emptyWorld)
    = failure (Some PERSIST_FAILED) /\
  objects (snd (parseResume (Sample.envInsertFails Sample.alice)
                  (mkForm (Some Sample.resumePdf) None) Sample.emptyWorld))
    !! Sample.alicePath = None.
Proof.
  pose proof (parseResume_rolls_back_on_persist_failure
                (Sample.envInsertFails Sample.alice) Sample.resumePdf None
                Sample.alice Sample.emptyWorld) as H.
  cbv zeta in H.
  destruct H as (Hresult & _ & _ & Hblob & _);
    try (vm_compute; reflexivity).
  - left. by eexists.
  - split; [exact Hresult|].
    destruct (Hblob eq_refl) as [Hgone _]. exact Hgone.
Defined.

(** C1, as stated, fails when the blob store does not carry out the
    compensating delete: the insert is rejected after a successful
    upload and extraction, the caller gets the persistence message, and
    the blob is still stored at the generated path. *)
Lemma parseResume_rolls_back_counterexample :
  let run := parseResume (Sample.envRollbackFails Sample.alice)
               (mkForm (Some Sample.resumePdf) None) Sample.emptyWorld in
  fst run = failure (Some PERSIST_FAILED) /\
  calls (snd run) =
    [StorageUpload Sample.alicePath;
     DbInsert (mkInsert Sample.alice (js "John Doe Resume 2024")
                 (file_url Sample.aliceRow) (Some (js "Hello World"))
                 (Some 20) (Some pdf));
     StorageRemove [Sample.alicePath]] /\
  objects (snd run) !! Sample.alicePath = Some Sample.pdfBytes.
Proof. repeat split; vm_compute; reflexivity. Qed.

(** Row-level security shows a signed-in caller the rows they own and
    no others. *)
Lemma db_select_foreign (env : Env) (resumeId caller : jsstring)
    (resume : Resume) (w : World) :
  resumes w !! resumeId = Some resume ->
  auth_user env = Some caller ->
  caller <> user_id resume ->
  db_select env resumeId w = None.
Proof.
  intros Hrow Hauth Hother. unfold db_select, visibleTo.
  destruct (select_fault env); [reflexivity|].
  rewrite Hrow, Hauth. rewrite bool_decide_eq_false_2; [reflexivity|]. congruence.
Qed.

(** C8, as amended. When a signed-in caller asks to delete a stored row
    that belongs to someone else, [deleteResume] fails and the world is
    the one it started from: the row and its blob are still there and no
    request reached either store. The failure is "Resume not found":
    row-level security hides the row from the lookup, so the function's
    own ownership check, which would answer "Unauthorized", is not
    reached. *)
Theorem deleteResume_non_owner_not_found
    (env : Env) (resumeId caller : jsstring) (resume : Resume) (w : World) :
  resumes w !! resumeId = Some resume ->
  auth_user env = Some caller ->
  caller <> user_id resume ->
  deleteResume env resumeId w = (mkDelete false (Some NOT_FOUND), w).
Proof.
  intros Hrow Hauth Hother. unfold deleteResume.
  by rewrite (db_select_foreign env resumeId caller resume w).
Qed.

Lemma deleteResume_non_owner_witness :
  deleteResume (Sample.envOf Sample.bob) (js "resume-1") Sample.aliceWorld
  = (mkDelete false (Some NOT_FOUND), Sample.aliceWorld).
Proof.
  apply (deleteResume_non_owner_not_found (Sample.envOf Sample.bob)
           (js "resume-1") Sample.bob Sample.aliceRow Sample.aliceWorld).
  - vm_compute. reflexivity.
  - reflexivity.
  - vm_compute. discriminate.
Defined.

(** Under row-level security the ownership check of [deleteResume] never
    fires: whatever the session and the table, the answer is not
    "Unauthorized". *)
Lemma deleteResume_never_unauthorized (env : Env) (resumeId : jsstring) (w : World) :
  del_error (fst (deleteResume env resumeId w)) <> Some UNAUTHORIZED.
Proof.
  unfold deleteResume, db_select.
  destruct (select_fault env); [cbn; discriminate|].
  destruct (resumes w !! resumeId) as [resume|]; [|cbn; discriminate].
  unfold visibleTo. destruct (bool_decide_reflect (auth_user env = Some (user_id resume)))
    as [Howner|]; [|cbn; discriminate].
  rewrite Howner. unfold JS.eqb. rewrite bool_decide_eq_true_2 by done. cbn [negb].
  unfold db_delete. destruct (delete_fault env); cbn; discriminate.
Qed.

(** C8, as stated, fails when user B asks to delete the row of user A:
    the answer is "Resume not found", not "Unauthorized". The row and
    the blob are intact, as the claim says. *)
Lemma deleteResume_non_owner_counterexample :
  resumes Sample.aliceWorld !! js "resume-1" = Some Sample.aliceRow /\
  user_id Sample.aliceRow = Sample.alice /\
  auth_user (Sample.envOf Sample.bob) = Some Sample.bob /\
  del_error (fst (deleteResume (Sample.envOf Sample.bob) (js "resume-1")
                    Sample.aliceWorld)) = Some NOT_FOUND /\
  NOT_FOUND <> UNAUTHORIZED /\
  snd (deleteResume (Sample.envOf Sample.bob) (js "resume-1") Sample.aliceWorld)
  = Sample.aliceWorld.
Proof.
  repeat split; try (vm_compute; reflexivity).
  vm_compute. discriminate.
Qed.

(** A caller to whom the lookup shows no row (the id is unknown, the
    read fails, or the datastore hides rows of other users) is told
    "Resume not found", again with nothing changed. *)
Lemma deleteResume_not_found (env : Env) (resumeId : jsstring) (w : World) :
  db_select env resumeId w = None ->
  deleteResume env resumeId w = (mkDelete false (Some NOT_FOUND), w).
Proof. intros Hnone. unfold deleteResume. by rewrite Hnone. Qed.

(** C10. When the stored locator of an owned row does not contain
    "/resumes/", [extractFilePathFromUrl] returns null; [deleteResume]
    deletes the row, sends no delete to the blob store, and reports
    success, so the bucket is left exactly as it was. *)
Theorem deleteResume_locator_without_bucket
    (env : Env) (resumeId : jsstring) (resume : Resume) (w : World) :
  db_select env resumeId w = Some resume ->
  auth_user env = Some (user_id resume) ->
  delete_fault env = None ->
  includes (js "/resumes/") (file_url resume) = false ->
  extractFilePathFromUrl (file_url resume) (user_id resume) = None /\
  deleteResume env resumeId w =
    (mkDelete true None,
     mkWorld (objects w) (delete resumeId (resumes w)) (calls w ++ [DbDelete resumeId])).
Proof.
  intros Hrow Hauth Hdelete Hno.
  pose proof (extractFilePathFromUrl_absent _ (user_id resume) Hno) as Hpath.
  split; [exact Hpath|].
  unfold deleteResume. rewrite Hrow, Hauth. unfold JS.eqb.
  rewrite bool_decide_eq_true_2 by done. cbn [negb].
  rewrite Hpath. unfold db_delete, logCall. rewrite Hdelete.
  reflexivity.
Qed.

Lemma deleteResume_locator_witness :
  deleteResume (Sample.envOf Sample.alice) (js "resume-2") Sample.aliceWorld
  = (mkDelete true None,
     mkWorld (objects Sample.aliceWorld)
       (delete (js "resume-2") (resumes Sample.aliceWorld))
       [DbDelete (js "resume-2")]).
Proof.
  apply (deleteResume_locator_without_bucket (Sample.envOf Sample.alice)
           (js "resume-2") Sample.strayRow Sample.aliceWorld);
    vm_compute; reflexivity.
Defined.

End Orchestrator.

(* ===================================================================== *)
(** ** Text Normalizer: what the two paths share *)
(* ===================================================================== *)

Section Normalizer.

Import Spec.

Lemma trimStart_startsClean (s : jsstring) : startsClean (trimStart s).
Proof.
  induction s as [|c s IH]; cbn [trimStart]; [exact I|].
  destruct (isWhiteSpace c) eqn:Hc; [exact IH | exact Hc].
Qed.

Lemma trimStart_clean (s : jsstring) : startsClean s -> trimStart s = s.
Proof. destruct s as [|c s]; cbn; [done | by intros ->]. Qed.

(** [trimStart] cuts a prefix off. *)
Lemma trimStart_suffix (s : jsstring) : exists pre, s = pre ++ trimStart s.
Proof.
  induction s as [|c s [pre IH]]; cbn [trimStart]; [by exists []|].
  destruct (isWhiteSpace c); [|by exists []].
  exists (c :: pre). cbn. by rewrite <- IH.
Qed.

Lemma trimEnd_prefix (s : jsstring) : exists suf, s = trimEnd s ++ suf.
Proof.
  unfold trimEnd. destruct (trimStart_suffix (rev s)) as [pre Hpre].
  exists (rev pre). rewrite <- rev_app_distr, <- Hpre. by rewrite rev_involutive.
Qed.

Lemma trimEnd_startsClean (s : jsstring) : startsClean s -> startsClean (trimEnd s).
Proof.
  intros Hs. destruct (trimEnd_prefix s) as [suf Hsuf].
  destruct (trimEnd s) as [|c t]; [exact I|].
  rewrite Hsuf in Hs. exact Hs.
Qed.

Lemma trimStart_Forall (P : N -> Prop) (s : jsstring) :
  Forall P s -> Forall P (trimStart s).
Proof.
  intros Hs. destruct (trimStart_suffix s) as [pre Hpre].
  rewrite Hpre in Hs. by apply Forall_app in Hs as [_ ?].
Qed.

Lemma trim_Forall (P : N -> Prop) (s : jsstring) : Forall P s -> Forall P (trim s).
Proof.
  intros Hs. unfold trim, trimEnd.
  apply Forall_rev, trimStart_Forall, Forall_rev. by apply trimStart_Forall.
Qed.

Lemma trim_tidy (s : jsstring) : Forall (fun c => c <> LF) s -> tidy (trim s).
Proof.
  intros Hs. repeat split.
  - apply trimEnd_startsClean, trimStart_startsClean.
  - unfold trim, trimEnd. rewrite rev_involutive. apply trimStart_startsClean.
  - by apply trim_Forall.
Qed.

Lemma trim_clean (s : jsstring) : startsClean s -> startsClean (rev s) -> trim s = s.
Proof.
  intros Hs Hr. unfold trim, trimEnd.
  rewrite (trimStart_clean s Hs), (trimStart_clean _ Hr). apply rev_involutive.
Qed.

(** *** Splitting and joining lines *)

Lemma splitChar_lines (s : jsstring) :
  Forall (Forall (fun c => c <> LF)) (splitChar LF s).
Proof.
  induction s as [|x s IH]; cbn [splitChar]; [by repeat constructor|].
  destruct (N.eqb_spec x LF) as [->|Hx]; [by constructor|].
  destruct (splitChar LF s) as [|l ls]; [by repeat constructor|].
  apply Forall_cons in IH as [Hl Hls]. constructor; [by constructor | done].
Qed.

Lemma splitChar_Forall (P : N -> Prop) (s : jsstring) :
  Forall P s -> Forall (Forall P) (splitChar LF s).
Proof.
  induction 1 as [|x s Hx Hs IH]; cbn [splitChar]; [by repeat constructor|].
  destruct (x =? LF); [by constructor|].
  destruct (splitChar LF s) as [|l ls]; [by repeat constructor|].
  apply Forall_cons in IH as [Hl Hls]. constructor; [by constructor | done].
Qed.

Lemma splitChar_line (l : jsstring) :
  Forall (fun c => c <> LF) l -> splitChar LF l = [l].
Proof.
  induction 1 as [|x l Hx Hl IH]; [reflexivity|].
  cbn [splitChar]. destruct (N.eqb_spec x LF); [done|]. by rewrite IH.
Qed.

Lemma splitChar_app (l rest : jsstring) :
  Forall (fun c => c <> LF) l ->
  splitChar LF (l ++ LF :: rest) = l :: splitChar LF rest.
Proof.
  induction 1 as [|x l Hx Hl IH]; [reflexivity|].
  cbn [app splitChar]. destruct (N.eqb_spec x LF); [done|]. by rewrite IH.
Qed.

Lemma splitChar_join (ls : list jsstring) :
  ls <> [] -> Forall (Forall (fun c => c <> LF)) ls ->
  splitChar LF (join [LF] ls) = ls.
Proof.
  induction ls as [|l ls IH]; [done|]. intros _ Hls.
  apply Forall_cons in Hls as [Hl Hls].
  destruct ls as [|l' ls]; [by apply splitChar_line|].
  change (join [LF] (l :: l' :: ls)) with (l ++ LF :: join [LF] (l' :: ls)).
  rewrite splitChar_app by done. by rewrite IH.
Qed.

Lemma join_snoc (sep : jsstring) (ls : list jsstring) (x : jsstring) :
  join sep (ls ++ [x]) =
    match ls with
    | [] => x
    | _ => join sep ls ++ sep ++ x
    end.
Proof.
  induction ls as [|l ls IH]; [reflexivity|].
  destruct ls as [|l' ls]; [reflexivity|].
  change (join sep ((l :: l' :: ls) ++ [x]))
    with (l ++ sep ++ join sep ((l' :: ls) ++ [x])).
  rewrite IH.
  change (join sep (l :: l' :: ls)) with (l ++ sep ++ join sep (l' :: ls)).
  by rewrite <- !app_assoc.
Qed.

Lemma rev_join (ls : list jsstring) :
  rev (join [LF] ls) = join [LF] (List.map (@rev N) (rev ls)).
Proof.
  induction ls as [|l ls IH]; [reflexivity|].
  cbn [rev]. rewrite List.map_app. cbn [List.map]. rewrite join_snoc.
  destruct ls as [|l' ls]; [reflexivity|].
  change (join [LF] (l :: l' :: ls)) with (l ++ [LF] ++ join [LF] (l' :: ls)).
  rewrite !rev_app_distr, IH, <- app_assoc. cbn [rev app].
  destruct (List.map (@rev N) (rev ls ++ [l'])) eqn:Hmap; [|reflexivity].
  apply (f_equal (@length _)) in Hmap.
  rewrite length_map, length_app in Hmap. cbn in Hmap. lia.
Qed.

(** *** Trimming joined lines *)

Lemma trimStart_join (ls : list jsstring) :
  Forall startsClean ls ->
  trimStart (join [LF] ls) = join [LF] (dropBlank ls).
Proof.
  induction 1 as [|l ls Hl Hls IH]; [reflexivity|].
  destruct l as [|c l].
  - cbn [dropBlank]. destruct ls as [|l' ls]; [reflexivity|].
    change (join [LF] ([] :: l' :: ls)) with (LF :: join [LF] (l' :: ls)).
    cbn [trimStart]. change (isWhiteSpace LF) with true. exact IH.
  - cbn [dropBlank]. apply trimStart_clean.
    destruct ls; exact Hl.
Qed.

Lemma dropBlank_map_rev (ls : list jsstring) :
  dropBlank (List.map (@rev N) ls) = List.map (@rev N) (dropBlank ls).
Proof.
  induction ls as [|l ls IH]; [reflexivity|].
  destruct l as [|c l]; [exact IH|].
  cbn [List.map dropBlank].
  destruct (rev (c :: l)) eqn:Hrev; [|reflexivity].
  apply (f_equal (@length _)) in Hrev. rewrite length_rev in Hrev. discriminate.
Qed.

Lemma map_rev_rev (ls : list jsstring) : List.map (@rev N) (List.map (@rev N) ls) = ls.
Proof.
  induction ls as [|l ls IH]; [reflexivity|].
  cbn [List.map]. by rewrite rev_involutive, IH.
Qed.

Lemma trimEnd_join (ls : list jsstring) :
  Forall (fun l => startsClean (rev l)) ls ->
  trimEnd (join [LF] ls) = join [LF] (rev (dropBlank (rev ls))).
Proof.
  intros Hls. unfold trimEnd.
  rewrite rev_join, trimStart_join.
  - rewrite rev_join, dropBlank_map_rev, <- List.map_rev.
    by rewrite map_rev_rev.
  - apply Forall_map, Forall_rev. exact Hls.
Qed.

Lemma dropBlank_Forall (P : jsstring -> Prop) (ls : list jsstring) :
  Forall P ls -> Forall P (dropBlank ls).
Proof.
  induction 1 as [|l ls Hl Hls IH]; [constructor|].
  destruct l; [exact IH | by constructor].
Qed.

Lemma dropBlank_filter (ls : list jsstring) :
  List.filter nonEmpty (dropBlank ls) = List.filter nonEmpty ls.
Proof.
  induction ls as [|l ls IH]; [reflexivity|].
  destruct l; [exact IH | reflexivity].
Qed.

Lemma dropBlank_nonEmpty (ls : list jsstring) :
  Forall (fun l => nonEmpty l = true) ls -> dropBlank ls = ls.
Proof. destruct 1 as [|l ls Hl _]; [reflexivity|]. by destruct l. Qed.

Lemma trim_join (ls : list jsstring) :
  Forall tidy ls -> trim (join [LF] ls) = join [LF] (core ls).
Proof.
  intros Hls. unfold trim, core.
  rewrite trimStart_join, trimEnd_join; [reflexivity| |].
  - apply dropBlank_Forall. eapply Forall_impl; [exact Hls|]. by intros l (_ & ? & _).
  - eapply Forall_impl; [exact Hls|]. by intros l (? & _).
Qed.

Lemma core_filter (ls : list jsstring) :
  List.filter nonEmpty (core ls) = List.filter nonEmpty ls.
Proof.
  unfold core.
  by rewrite List.filter_rev, dropBlank_filter, List.filter_rev, rev_involutive,
    dropBlank_filter.
Qed.

Lemma core_nonEmpty (ls : list jsstring) :
  Forall (fun l => nonEmpty l = true) ls -> core ls = ls.
Proof.
  intros Hls. unfold core.
  rewrite (dropBlank_nonEmpty ls Hls), dropBlank_nonEmpty by by apply Forall_rev.
  apply rev_involutive.
Qed.

Lemma core_Forall (P : jsstring -> Prop) (ls : list jsstring) :
  Forall P ls -> Forall P (core ls).
Proof.
  intros Hls. unfold core.
  by apply Forall_rev, dropBlank_Forall, Forall_rev, dropBlank_Forall.
Qed.

(** Dropping the blank lines before the final [trim] is dropping them
    after it. *)
Lemma trim_join_filter (ls : list jsstring) :
  Forall tidy ls ->
  trim (join [LF] (List.filter nonEmpty ls))
  = stripBlankLines (trim (join [LF] ls)).
Proof.
  intros Hls. unfold stripBlankLines.
  rewrite (trim_join ls Hls), trim_join, core_nonEmpty.
  - f_equal. rewrite <- (core_filter ls).
    destruct (core ls) as [|l ls'] eqn:Hcore; [reflexivity|].
    rewrite splitChar_join; [reflexivity | done |].
    rewrite <- Hcore. apply core_Forall.
    eapply Forall_impl; [exact Hls|]. by intros ? (_ & _ & ?).
  - apply List.Forall_forall. intros l Hl.
    by apply List.filter_In in Hl as [_ ?].
  - apply List.Forall_forall. intros l Hl.
    apply List.filter_In in Hl as [Hl _].
    by apply (proj1 (List.Forall_forall _ _) Hls).
Qed.

Lemma map_trim_tidy (s : jsstring) :
  Forall tidy (List.map trim (splitChar LF s)).
Proof.
  apply Forall_map. eapply Forall_impl; [apply splitChar_lines|].
  intros l Hl. by apply trim_tidy.
Qed.

(** *** Tabs *)

Lemma hasUnit_false (c : N) (s : jsstring) :
  Forall (fun x => x <> c) s -> hasUnit c s = false.
Proof.
  induction 1 as [|x s Hx Hs IH]; [reflexivity|].
  cbn [hasUnit existsb]. fold (hasUnit c s). rewrite IH, orb_false_r.
  apply N.eqb_neq. congruence.
Qed.

Lemma replaceChar_Forall (s : jsstring) :
  Forall (fun x => x <> TAB) (replaceChar TAB SP s).
Proof.
  unfold replaceChar. apply Forall_map, List.Forall_forall. intros x _.
  cbn beta. destruct (N.eqb_spec x TAB); [discriminate | done].
Qed.

Lemma join_Forall (P : N -> Prop) (sep : jsstring) (ls : list jsstring) :
  Forall P sep -> Forall (Forall P) ls -> Forall P (join sep ls).
Proof.
  intros Hsep. induction 1 as [|l ls Hl Hls IH]; [constructor|].
  destruct ls as [|l' ls]; [exact Hl|].
  change (join sep (l :: l' :: ls)) with (l ++ sep ++ join sep (l' :: ls)).
  by repeat apply Forall_app_2.
Qed.

Lemma filter_Forall (P : jsstring -> Prop) (f : jsstring -> bool) (ls : list jsstring) :
  Forall P ls -> Forall P (List.filter f ls).
Proof.
  induction 1 as [|l ls Hl Hls IH]; [constructor|].
  cbn [List.filter]. destruct (f l); [by constructor | done].
Qed.

(** *** The PDF path only removes code units *)

Lemma flushRun_sublist (c : N) (k : nat) (rep : jsstring) (run : nat) :
  rep `sublist_of` repeat c k -> flushRun c k rep run `sublist_of` repeat c run.
Proof.
  intros Hrep. unfold flushRun. destruct (Nat.leb_spec k run) as [Hle|_]; [|done].
  replace run with (k + (run - k))%nat by lia.
  rewrite repeat_app. by apply sublist_inserts_r.
Qed.

Lemma replaceRunsFrom_sublist (c : N) (k : nat) (rep : jsstring) :
  rep `sublist_of` repeat c k ->
  forall (s : jsstring) (run : nat),
    replaceRunsFrom c k rep run s `sublist_of` repeat c run ++ s.
Proof.
  intros Hrep. induction s as [|x s IH]; intros run; cbn [replaceRunsFrom].
  - rewrite app_nil_r. by apply flushRun_sublist.
  - destruct (N.eqb_spec x c) as [->|Hx].
    + replace (repeat c run ++ c :: s) with (repeat c (S run) ++ s); [apply IH|].
      cbn [repeat]. by rewrite repeat_cons, <- app_assoc.
    + apply sublist_app; [by apply flushRun_sublist|].
      apply sublist_skip, (IH 0%nat).
Qed.

Lemma replaceRuns_sublist (c : N) (k : nat) (rep s : jsstring) :
  rep `sublist_of` repeat c k -> replaceRuns c k rep s `sublist_of` s.
Proof. intros Hrep. apply (replaceRunsFrom_sublist c k rep Hrep s 0). Qed.

Lemma trim_sublist (s : jsstring) : trim s `sublist_of` s.
Proof.
  unfold trim.
  destruct (trimStart_suffix s) as [pre Hpre].
  destruct (trimEnd_prefix (trimStart s)) as [suf Hsuf].
  rewrite Hpre at 2. rewrite Hsuf at 2.
  by apply sublist_inserts_l, sublist_inserts_r.
Qed.

Lemma splitChar_nonempty (c : N) (s : jsstring) : splitChar c s <> [].
Proof.
  destruct s as [|x s]; cbn [splitChar]; [done|].
  destruct (x =? c); [done|]. by destruct (splitChar c s).
Qed.

Lemma join_splitChar (s : jsstring) : join [LF] (splitChar LF s) = s.
Proof.
  induction s as [|x s IH]; [reflexivity|]. cbn [splitChar].
  pose proof (splitChar_nonempty LF s) as Hne.
  destruct (N.eqb_spec x LF) as [->|Hx];
    destruct (splitChar LF s) as [|l ls]; try done.
  - change (join [LF] ([] :: l :: ls)) with (LF :: join [LF] (l :: ls)).
    by rewrite IH.
  - rewrite <- IH. by destruct ls.
Qed.

Lemma join_sublist (sep : jsstring) (ls ls' : list jsstring) :
  Forall2 sublist ls ls' -> join sep ls `sublist_of` join sep ls'.
Proof.
  induction 1 as [|l l' ls ls' Hl Hls IH]; [done|].
  destruct Hls as [|m m' ms ms' Hm Hms]; [exact Hl|].
  change (join sep (l :: m :: ms)) with (l ++ sep ++ join sep (m :: ms)).
  change (join sep (l' :: m' :: ms')) with (l' ++ sep ++ join sep (m' :: ms')).
  by repeat apply sublist_app.
Qed.

Lemma trimLines_sublist (s : jsstring) : trimLines s `sublist_of` s.
Proof.
  unfold trimLines. etrans; [apply trim_sublist|].
  rewrite <- (join_splitChar s) at 2. apply join_sublist.
  apply Forall2_fmap_l, Forall_Forall2_diag, List.Forall_forall.
  intros l _. apply trim_sublist.
Qed.

Lemma pdf_cleanText_sublist (x : jsstring) : PdfParser.cleanText x `sublist_of` x.
Proof.
  change (PdfParser.cleanText x) with (trimLines (collapseNewlines (collapseSpaces x))).
  etrans; [apply trimLines_sublist|].
  etrans; apply replaceRuns_sublist; cbn [repeat].
  - by apply sublist_cons.
  - by apply sublist_cons.
Qed.

(** C9, as amended. The two paths share four steps: collapse runs of
    two or more spaces, collapse runs of three or more newlines, trim
    every line, trim the whole. The PDF path is exactly these. The DOCX
    path adds two: it turns every tab into a space after the collapsing
    steps, and it removes the blank lines. So the DOCX output never
    holds a tab, while the PDF path only removes code units (its output
    is a subsequence of its input) and keeps the tabs inside a line. *)
Theorem cleanText_paths (x : jsstring) :
  PdfParser.cleanText x = trimLines (collapseNewlines (collapseSpaces x)) /\
  DocxParser.cleanText x =
    stripBlankLines
      (trimLines (tabsToSpaces (collapseNewlines (collapseSpaces x)))) /\
  hasUnit TAB (DocxParser.cleanText x) = false /\
  PdfParser.cleanText x `sublist_of` x /\
  PdfParser.cleanText (js "a" ++ [TAB] ++ js "b") = js "a" ++ [TAB] ++ js "b".
Proof.
  split; [reflexivity|].
  split; [|split; [|split; [apply pdf_cleanText_sublist | reflexivity]]].
  - unfold DocxParser.cleanText, trimLines.
    apply (trim_join_filter _ (map_trim_tidy _)).
  - apply hasUnit_false. unfold DocxParser.cleanText.
    apply trim_Forall, join_Forall; [by repeat constructor|].
    apply filter_Forall, Forall_map.
    eapply Forall_impl; [apply splitChar_Forall, replaceChar_Forall|].
    intros l Hl. by apply trim_Forall.
Qed.

(** C9, as stated, fails on "a<TAB>b": the PDF path returns it with the
    tab in place, and it is the DOCX path that turns the tab into a
    space. *)
Lemma cleanText_paths_counterexample :
  let x := js "a" ++ [TAB] ++ js "b" in
  PdfParser.cleanText x = x /\
  hasUnit TAB (PdfParser.cleanText x) = true /\
  DocxParser.cleanText x = js "a b".
Proof. repeat split; vm_compute; reflexivity. Qed.

End Normalizer.

(* ===================================================================== *)
(** ** Text Normalizer: what the output looks like *)
(* ===================================================================== *)

Section NormalizerOutput.

Import Spec.

(** *** The visible code units are kept *)

Lemma visible_app (a b : jsstring) : visible (a ++ b) = visible a ++ visible b.
Proof. apply List.filter_app. Qed.

Lemma visible_repeat (c : N) (n : nat) :
  isWhiteSpace c = true -> visible (repeat c n) = [].
Proof.
  intros Hc. induction n as [|n IH]; [reflexivity|].
  cbn [repeat visible List.filter]. by rewrite Hc.
Qed.

Lemma visible_flushRun (c : N) (k : nat) (rep : jsstring) (run : nat) :
  isWhiteSpace c = true -> visible rep = [] -> visible (flushRun c k rep run) = [].
Proof.
  intros Hc Hrep. unfold flushRun.
  destruct (k <=? run)%nat; [exact Hrep | by apply visible_repeat].
Qed.

Lemma visible_replaceRuns (c : N) (k : nat) (rep : jsstring) :
  isWhiteSpace c = true -> visible rep = [] ->
  forall (s : jsstring) (run : nat),
    visible (replaceRunsFrom c k rep run s) = visible s.
Proof.
  intros Hc Hrep. induction s as [|x s IH]; intros run; cbn [replaceRunsFrom].
  - by apply visible_flushRun.
  - destruct (N.eqb_spec x c) as [->|Hx].
    + rewrite IH. cbn [visible List.filter]. by rewrite Hc.
    + rewrite visible_app, visible_flushRun by done.
      cbn [app visible List.filter]. fold (visible s).
      fold (visible (replaceRunsFrom c k rep 0 s)). by rewrite IH.
Qed.

Lemma visible_replaceChar (c d : N) (s : jsstring) :
  isWhiteSpace c = true -> isWhiteSpace d = true ->
  visible (replaceChar c d s) = visible s.
Proof.
  intros Hc Hd. induction s as [|x s IH]; [reflexivity|].
  cbn [replaceChar List.map visible List.filter].
  fold (replaceChar c d s). fold (visible (replaceChar c d s)). fold (visible s).
  rewrite IH. destruct (N.eqb_spec x c) as [->|_]; [by rewrite Hc, Hd | done].
Qed.

Lemma visible_trimStart (s : jsstring) : visible (trimStart s) = visible s.
Proof.
  induction s as [|x s IH]; [reflexivity|]. cbn [trimStart].
  destruct (isWhiteSpace x) eqn:Hx; [|reflexivity].
  cbn [visible List.filter]. by rewrite Hx.
Qed.

Lemma visible_rev (s : jsstring) : visible (rev s) = rev (visible s).
Proof. apply List.filter_rev. Qed.

Lemma visible_trim (s : jsstring) : visible (trim s) = visible s.
Proof.
  unfold trim, trimEnd.
  by rewrite visible_rev, visible_trimStart, visible_rev, rev_involutive,
    visible_trimStart.
Qed.

Lemma visible_join (ls : list jsstring) :
  visible (join [LF] ls) = List.concat (List.map visible ls).
Proof.
  induction ls as [|l ls IH]; [reflexivity|].
  destruct ls as [|l' ls]; [cbn; by rewrite app_nil_r|].
  change (join [LF] (l :: l' :: ls)) with (l ++ LF :: join [LF] (l' :: ls)).
  rewrite visible_app. cbn [visible List.filter].
  change (isWhiteSpace LF) with true. cbn [negb].
  fold (visible (join [LF] (l' :: ls))). by rewrite IH.
Qed.

Lemma visible_lines_trim (ls : list jsstring) :
  List.concat (List.map visible (List.map trim ls))
  = List.concat (List.map visible ls).
Proof.
  induction ls as [|l ls IH]; [reflexivity|].
  cbn [List.map List.concat]. by rewrite visible_trim, IH.
Qed.

Lemma visible_lines_filter (ls : list jsstring) :
  List.concat (List.map visible (List.filter nonEmpty ls))
  = List.concat (List.map visible ls).
Proof.
  induction ls as [|l ls IH]; [reflexivity|].
  cbn [List.filter]. destruct l as [|c l]; [exact IH|].
  cbn [nonEmpty length Nat.ltb Nat.leb List.map List.concat]. by rewrite IH.
Qed.

(** A string without visible code units trims to nothing. *)
Lemma trim_blank_aux (s : jsstring) : visible s = [] -> trim s = [].
Proof.
  intros Hs. unfold trim.
  assert (Hstart : trimStart s = []).
  { induction s as [|x s IH]; [reflexivity|].
    cbn [visible List.filter] in Hs. cbn [trimStart].
    destruct (isWhiteSpace x); [by apply IH | discriminate]. }
  by rewrite Hstart.
Qed.

Lemma visible_collapse (x : jsstring) :
  visible (replaceRuns LF 3 [LF; LF] (replaceRuns SP 2 [SP] x)) = visible x.
Proof. unfold replaceRuns. by rewrite !visible_replaceRuns. Qed.

Lemma visible_trimmed_lines (s : jsstring) :
  visible (join [LF] (List.map trim (splitChar LF s))) = visible s.
Proof.
  by rewrite visible_join, visible_lines_trim, <- visible_join, join_splitChar.
Qed.

(** X1. Both normalizers change whitespace only: the code units that are
    not whitespace come out as they went in, none lost, none added, in
    the same order. *)
Theorem cleanText_keeps_visible (x : jsstring) :
  visible (PdfParser.cleanText x) = visible x /\
  visible (DocxParser.cleanText x) = visible x.
Proof.
  split.
  - unfold PdfParser.cleanText.
    by rewrite visible_trim, visible_trimmed_lines, visible_collapse.
  - unfold DocxParser.cleanText.
    rewrite visible_trim, visible_join.
    change (fun line : jsstring => (0 <? length line)%nat) with nonEmpty.
    rewrite visible_lines_filter, <- visible_join, visible_trimmed_lines.
    by rewrite visible_replaceChar, visible_collapse.
Qed.

(** A normalizer that keeps the visible code units keeps text that is
    not blank from becoming empty. *)
Lemma visible_nonblank (f : jsstring -> jsstring) (x : jsstring) :
  visible (f x) = visible x -> trim x <> [] -> f x <> [].
Proof.
  intros Hkeep Hx Hempty. apply Hx, trim_blank_aux.
  by rewrite <- Hkeep, Hempty.
Qed.

(** Text that is not blank stays non-empty under either normalizer. *)
Lemma cleanText_nonblank (x : jsstring) :
  trim x <> [] -> PdfParser.cleanText x <> [] /\ DocxParser.cleanText x <> [].
Proof.
  intros Hx. split; apply visible_nonblank; try done.
  - unfold PdfParser.cleanText.
    by rewrite visible_trim, visible_trimmed_lines, visible_collapse.
  - unfold DocxParser.cleanText.
    rewrite visible_trim, visible_join.
    change (fun line : jsstring => (0 <? length line)%nat) with nonEmpty.
    rewrite visible_lines_filter, <- visible_join, visible_trimmed_lines.
    by rewrite visible_replaceChar, visible_collapse.
Qed.

(** *** Lines of the output *)

Lemma tidy_trim (l : jsstring) : tidy l -> trim l = l.
Proof. intros (Hs & Hr & _). by apply trim_clean. Qed.

Lemma tidy_lines (ls : list jsstring) :
  Forall tidy ls -> Forall (Forall (fun c => c <> LF)) ls.
Proof. intros Hls. eapply Forall_impl; [exact Hls|]. by intros l (_ & _ & ?). Qed.

Lemma filter_nonEmpty (ls : list jsstring) :
  Forall (fun l => nonEmpty l = true) (List.filter nonEmpty ls).
Proof.
  apply List.Forall_forall. intros l Hl. by apply List.filter_In in Hl as [_ ?].
Qed.

(** The DOCX normalizer returns its non-empty trimmed lines joined by
    newlines; the final [trim] finds nothing to remove. *)
Lemma docx_cleanText_lines (x : jsstring) :
  DocxParser.cleanText x =
    join [LF] (List.filter nonEmpty
                 (List.map trim (splitChar LF
                    (tabsToSpaces (collapseNewlines (collapseSpaces x)))))).
Proof.
  unfold DocxParser.cleanText.
  change (fun line : jsstring => (0 <? length line)%nat) with nonEmpty.
  rewrite trim_join by apply filter_Forall, map_trim_tidy.
  by rewrite core_nonEmpty by apply filter_nonEmpty.
Qed.

(** X2. Every line of the PDF normalizer's output is trimmed. Every line
    of the DOCX normalizer's output is trimmed and not empty, unless the
    whole output is empty. *)
Theorem cleanText_lines_trimmed (x : jsstring) :
  Forall (fun l => trim l = l) (splitChar LF (PdfParser.cleanText x)) /\
  (DocxParser.cleanText x = [] \/
   Forall (fun l => trim l = l /\ l <> [])
     (splitChar LF (DocxParser.cleanText x))).
Proof.
  split.
  - unfold PdfParser.cleanText.
    pose proof (map_trim_tidy (replaceRuns LF 3 [LF; LF] (replaceRuns SP 2 [SP] x)))
      as Htidy.
    rewrite trim_join by done.
    apply (core_Forall tidy) in Htidy.
    destruct (core _) as [|l ls] eqn:Hcore; [by repeat constructor|].
    rewrite splitChar_join by (done || by apply tidy_lines).
    eapply Forall_impl; [exact Htidy|]. apply tidy_trim.
  - rewrite docx_cleanText_lines.
    pose proof (map_trim_tidy (tabsToSpaces (collapseNewlines (collapseSpaces x))))
      as Htidy.
    apply (filter_Forall tidy nonEmpty) in Htidy.
    pose proof (filter_nonEmpty
                  (List.map trim (splitChar LF
                     (tabsToSpaces (collapseNewlines (collapseSpaces x))))))
      as Hfull.
    destruct (List.filter nonEmpty _) as [|l ls] eqn:Hlines; [by left|]. right.
    rewrite splitChar_join by (done || by apply tidy_lines).
    apply List.Forall_forall. intros m Hm. split.
    + apply tidy_trim. by apply (proj1 (List.Forall_forall _ _) Htidy).
    + apply (proj1 (List.Forall_forall _ _) Hfull) in Hm. by destruct m.
Qed.

(** *** No doubled spaces on the PDF path *)

Lemma noDouble_cons (c x y : N) (t : jsstring) :
  noDouble c (x :: y :: t) = negb ((x =? c) && (y =? c)) && noDouble c (y :: t).
Proof. reflexivity. Qed.

Lemma noDouble_tail (c x : N) (t : jsstring) :
  noDouble c (x :: t) = true -> noDouble c t = true.
Proof. destruct t; [done|]. rewrite noDouble_cons. by intros [_ ?]%andb_true_iff. Qed.

Lemma noDouble_app_r (c : N) (a b : jsstring) :
  noDouble c (a ++ b) = true -> noDouble c b = true.
Proof.
  induction a as [|x a IH]; [done|]. intros H. by apply IH, (noDouble_tail c x).
Qed.

Lemma noDouble_app_l (c : N) (a b : jsstring) :
  noDouble c (a ++ b) = true -> noDouble c a = true.
Proof.
  induction a as [|x a IH]; [done|]. destruct a as [|y a]; [done|].
  cbn [app]. rewrite !noDouble_cons. intros [Hxy Hrest]%andb_true_iff.
  rewrite Hxy. by apply IH.
Qed.

Lemma noDouble_sep (c d : N) (a b : jsstring) :
  d <> c -> noDouble c a = true -> noDouble c b = true ->
  noDouble c (a ++ d :: b) = true.
Proof.
  intros Hd%N.eqb_neq. induction a as [|x a IH]; intros Ha Hb.
  - destruct b; [done|]. cbn [app]. by rewrite noDouble_cons, Hd, Hb.
  - destruct a as [|y a].
    + cbn [app]. rewrite noDouble_cons, Hd, andb_false_r. by apply (IH eq_refl).
    + cbn [app] in *. rewrite noDouble_cons in *.
      apply andb_true_iff in Ha as [-> Ha]. by apply IH.
Qed.

Lemma noDouble_collapseSpaces (s : jsstring) :
  forall run : nat, noDouble SP (replaceRunsFrom SP 2 [SP] run s) = true.
Proof.
  assert (Hflush : forall run, noDouble SP (flushRun SP 2 [SP] run) = true).
  { intros [|[|run]]; reflexivity. }
  induction s as [|x s IH]; intros run; cbn [replaceRunsFrom]; [apply Hflush|].
  destruct (N.eqb_spec x SP) as [->|Hx]; [apply IH|].
  by apply noDouble_sep.
Qed.

Lemma noDouble_collapseNewlines (s : jsstring) :
  forall (p : jsstring) (run : nat),
    noDouble SP (p ++ repeat LF run ++ s) = true ->
    noDouble SP (p ++ replaceRunsFrom LF 3 [LF; LF] run s) = true.
Proof.
  assert (Hflush : forall (p t : jsstring) (run : nat),
             noDouble SP (p ++ repeat LF run ++ t) = true ->
             noDouble SP (p ++ flushRun LF 3 [LF; LF] run ++ t) = true).
  { intros p t run H. unfold flushRun.
    destruct (3 <=? run)%nat; [|exact H].
    pose proof (noDouble_app_l _ _ _ H) as Hp.
    pose proof (noDouble_app_r _ _ _ (noDouble_app_r _ _ _ H)) as Ht.
    apply noDouble_sep; [done | done |].
    by apply (noDouble_sep SP LF []). }
  induction s as [|x s IH]; intros p run H; cbn [replaceRunsFrom].
  - rewrite <- (app_nil_r (flushRun _ _ _ _)). by apply Hflush.
  - destruct (N.eqb_spec x LF) as [->|Hx].
    + apply IH. cbn [repeat]. by rewrite repeat_cons, <- app_assoc.
    + apply Hflush in H.
      replace (p ++ flushRun LF 3 [LF; LF] run ++ x :: replaceRunsFrom LF 3 [LF; LF] 0 s)
        with ((p ++ flushRun LF 3 [LF; LF] run ++ [x])
              ++ replaceRunsFrom LF 3 [LF; LF] 0 s)
        by (by rewrite <- !app_assoc).
      apply (IH _ 0%nat). cbn [repeat app]. by rewrite <- !app_assoc.
Qed.

Lemma noDouble_lines (c : N) (ls : list jsstring) :
  noDouble c (join [LF] ls) = true -> Forall (fun l => noDouble c l = true) ls.
Proof.
  induction ls as [|l ls IH]; [constructor|].
  destruct ls as [|l' ls]; [by repeat constructor|].
  change (join [LF] (l :: l' :: ls)) with (l ++ LF :: join [LF] (l' :: ls)).
  intros H. constructor; [by apply noDouble_app_l in H|].
  apply IH. by apply noDouble_app_r, noDouble_tail in H.
Qed.

Lemma noDouble_join (ls : list jsstring) :
  Forall (fun l => noDouble SP l = true) ls -> noDouble SP (join [LF] ls) = true.
Proof.
  induction 1 as [|l ls Hl Hls IH]; [done|].
  destruct ls as [|l' ls]; [exact Hl|].
  change (join [LF] (l :: l' :: ls)) with (l ++ LF :: join [LF] (l' :: ls)).
  by apply noDouble_sep.
Qed.

Lemma noDouble_trim (c : N) (s : jsstring) :
  noDouble c s = true -> noDouble c (trim s) = true.
Proof.
  intros Hs. unfold trim.
  destruct (trimStart_suffix s) as [pre Hpre].
  destruct (trimEnd_prefix (trimStart s)) as [suf Hsuf].
  rewrite Hpre in Hs. apply noDouble_app_r in Hs.
  rewrite Hsuf in Hs. by apply noDouble_app_l in Hs.
Qed.

(** X3. The output of the PDF normalizer never holds two spaces in a
    row. *)
Theorem pdf_cleanText_no_double_space (x : jsstring) :
  noDouble SP (PdfParser.cleanText x) = true.
Proof.
  unfold PdfParser.cleanText.
  apply noDouble_trim, noDouble_join, Forall_map.
  eapply Forall_impl; [|intros l Hl; apply noDouble_trim; exact Hl].
  apply noDouble_lines. rewrite join_splitChar.
  apply (noDouble_collapseNewlines _ [] 0%nat), noDouble_collapseSpaces.
Qed.

End NormalizerOutput.

(* ===================================================================== *)
(** ** Format Sniffer: the exact PDF check *)
(* ===================================================================== *)

Section SnifferExact.

(** A decoded code unit below 128 comes from the byte of that value. *)
Lemma toStringUtf8_head (b0 : N) (r : buffer) (c : N) (s : jsstring) :
  toStringUtf8 (b0 :: r) = c :: s -> c < 128 ->
  b0 = c /\ s = toStringUtf8 r.
Proof.
  cbn [toStringUtf8].
  destruct (N.ltb_spec b0 128) as [_|Hhigh]; [by intros [= <- <-]|].
  unfold isSecond, secondLow, secondHigh, isContinuation, REPLACEMENT.
  repeat match goal with
         | |- context [if ?b then _ else _] => destruct b eqn:?
         | |- context [match ?l with [] => _ | _ :: _ => _ end] =>
             is_var l; destruct l
         end;
    intros [= <- _] Hc;
    repeat match goal with
           | H : _ && _ = true |- _ => apply andb_true_iff in H as [? ?]
           | H : (_ <=? _) = true |- _ => apply N.leb_le in H
           | H : (_ =? _) = true |- _ => apply N.eqb_eq in H
           | H : (_ =? _) = false |- _ => apply N.eqb_neq in H
           end;
    first
      [ lia
      | exfalso;
        match type of Hc with
        | context [N.div ?a ?b] => generalize dependent (N.div a b)
        end;
        intros; lia ].
Qed.

Lemma isValidPDFBuffer_true (buf : buffer) :
  PdfParser.isValidPDFBuffer buf = true <->
  exists rest, buf = 37 :: 80 :: 68 :: 70 :: 45 :: rest.
Proof.
  unfold PdfParser.isValidPDFBuffer, JS.eqb, slice0. split.
  - intros H%bool_decide_eq_true. change (js "%PDF-") with [37; 80; 68; 70; 45] in H.
    destruct buf as [|b0 [|b1 [|b2 [|b3 [|b4 rest]]]]]; cbn [take] in H;
      repeat match type of H with
             | toStringUtf8 (_ :: _) = _ :: _ =>
                 apply toStringUtf8_head in H as [-> H]; [|lia]; symmetry in H
             | _ :: _ = toStringUtf8 (_ :: _) =>
                 symmetry in H;
                 apply toStringUtf8_head in H as [-> H]; [|lia]; symmetry in H
             end;
      try discriminate.
    by exists rest.
  - intros [rest ->]. reflexivity.
Qed.

(** X4. [isValidPDFBuffer] accepts exactly the buffers that begin with
    the five bytes of "%PDF-", and no buffer passes both magic-number
    checks. *)
Theorem isValidPDFBuffer_exact (buf : buffer) :
  (PdfParser.isValidPDFBuffer buf = true <->
   exists rest, buf = 37 :: 80 :: 68 :: 70 :: 45 :: rest) /\
  PdfParser.isValidPDFBuffer buf && DocxParser.isValidDOCXBuffer buf = false.
Proof.
  split; [apply isValidPDFBuffer_true|].
  destruct (PdfParser.isValidPDFBuffer buf) eqn:Hpdf; [|reflexivity].
  apply isValidPDFBuffer_true in Hpdf as [rest ->]. reflexivity.
Qed.

End SnifferExact.

(* ===================================================================== *)
(** ** Input Validator: the composed check and the helpers *)
(* ===================================================================== *)

Section ValidatorMore.

Import FileValidation.

Lemma validateResumeFile_accepts_aux (file : File) :
  valid (validateResumeFile file) = true ->
  0 < size file /\ size file <= 10485760 /\ valid (validateFileType file) = true.
Proof.
  unfold validateResumeFile, validateFileNotEmpty, validateFileSize.
  change MAX_FILE_SIZE with 10485760.
  destruct (N.eqb_spec (size file) 0) as [Hzero|Hpos]; cbn [valid invalid ok negb];
    [discriminate|].
  destruct (valid (validateFileType file)) eqn:Htype; cbn [negb].
  - destruct (N.ltb_spec 10485760 (size file)); cbn [valid invalid ok negb];
      [discriminate|]. intros _. repeat split; lia.
  - by rewrite Htype.
Qed.

(** X5. [validateResumeFile] accepts a file exactly when it is not
    empty, at most 10485760 bytes long and passes the declared-type
    check. An empty file is told so whatever its type and name, and a
    non-empty file with a bad type is told about the type whatever its
    size. *)
Theorem validateResumeFile_accepts (file : File) :
  (valid (validateResumeFile file) = true <->
     0 < size file /\ size file <= 10485760 /\
     valid (validateFileType file) = true) /\
  (size file = 0 -> validateResumeFile file = invalid EMPTY_ERROR) /\
  (0 < size file -> valid (validateFileType file) = false ->
     validateResumeFile file = validateFileType file).
Proof.
  unfold validateResumeFile, validateFileNotEmpty, validateFileSize.
  change MAX_FILE_SIZE with 10485760.
  assert (Hsettle : forall P Q : Prop, (P -> False) -> (Q -> False) -> (P <-> Q))
    by tauto.
  destruct (N.eqb_spec (size file) 0) as [Hzero|Hpos]; cbn [valid invalid ok negb].
  - split; [apply Hsettle; [done | lia]|]. split; [done | lia].
  - destruct (valid (validateFileType file)) eqn:Htype; cbn [negb].
    + destruct (N.ltb_spec 10485760 (size file)) as [Hbig|Hfits];
        cbn [valid invalid ok negb].
      * split; [apply Hsettle; [done | lia]|]. split; [lia | done].
      * split; [split; [intros _; repeat split; lia | done]|].
        split; [lia | done].
    + rewrite Htype.
      split; [apply Hsettle; [done | by intros (_ & _ & ?)]|]. split; [lia | done].
Qed.

(** *** Splitting at any code unit *)

Lemma splitChar_at (c : N) (l r : jsstring) :
  splitChar c (l ++ c :: r) = splitChar c l ++ splitChar c r.
Proof.
  induction l as [|x l IH]; cbn [app splitChar].
  - by rewrite N.eqb_refl.
  - rewrite IH. destruct (x =? c); [reflexivity|].
    pose proof (splitChar_nonempty c l). by destruct (splitChar c l).
Qed.

Lemma splitChar_whole (c : N) (l : jsstring) :
  Forall (fun x => x <> c) l -> splitChar c l = [l].
Proof.
  induction 1 as [|x l Hx Hl IH]; [reflexivity|].
  cbn [splitChar]. destruct (N.eqb_spec x c); [done|]. by rewrite IH.
Qed.

Lemma join_splitChar_any (c : N) (s : jsstring) : join [c] (splitChar c s) = s.
Proof.
  induction s as [|x s IH]; [reflexivity|]. cbn [splitChar].
  pose proof (splitChar_nonempty c s) as Hne.
  destruct (N.eqb_spec x c) as [->|Hx];
    destruct (splitChar c s) as [|l ls]; try done.
  - change (join [c] ([] :: l :: ls)) with (c :: join [c] (l :: ls)).
    by rewrite IH.
  - rewrite <- IH. by destruct ls.
Qed.

Lemma startsWith_iff (p s : jsstring) :
  startsWith p s = true <-> exists t, s = p ++ t.
Proof.
  revert s. induction p as [|a p IH]; intros s; cbn [startsWith].
  - split; [by exists s | done].
  - destruct s as [|b s]; [split; [done | by intros [t ?]]|].
    rewrite andb_true_iff, N.eqb_eq, IH. split.
    + intros [-> [t ->]]. by exists t.
    + intros [t [= -> ->]]. split; [done | by exists t].
Qed.

Lemma endsWith_iff (p s : jsstring) :
  endsWith p s = true <-> exists t, s = t ++ p.
Proof.
  unfold endsWith. rewrite startsWith_iff. split.
  - intros [t Ht]. exists (rev t).
    apply (f_equal (@rev N)) in Ht.
    by rewrite rev_involutive, rev_app_distr, rev_involutive in Ht.
  - intros [t ->]. exists (rev t). apply rev_app_distr.
Qed.

(** The extension helper and the suffix test agree on every extension
    that holds no dot of its own. *)
Lemma getFileExtension_endsWith (filename ext : jsstring) :
  Forall (fun x => x <> 46) ext ->
  JS.eqb (getFileExtension filename) (46 :: ext)
  = endsWith (46 :: ext) (toLowerCase filename).
Proof.
  intros Hext. apply Bool.eq_iff_eq_true.
  unfold JS.eqb. rewrite bool_decide_eq_true, endsWith_iff.
  unfold getFileExtension.
  pose proof (join_splitChar_any 46 (toLowerCase filename)) as Hjoin.
  pose proof (splitChar_nonempty 46 (toLowerCase filename)) as Hne.
  split.
  - destruct (1 <? length _)%nat eqn:Hlen; [|discriminate].
    intros [= Hlast]. apply Nat.ltb_lt in Hlen.
    rewrite (List.app_removelast_last [] Hne), Hlast in Hjoin, Hlen.
    rewrite join_snoc in Hjoin. rewrite length_app in Hlen. cbn in Hlen.
    destruct (List.removelast _) as [|l ls] eqn:Hinit; [cbn in Hlen; lia|].
    exists (join [46] (l :: ls)). by rewrite <- Hjoin.
  - intros [t Ht]. rewrite Ht, splitChar_at, (splitChar_whole 46 ext Hext).
    rewrite length_app, List.last_last. cbn [length].
    pose proof (splitChar_nonempty 46 t) as Hparts.
    assert (Hlen : (1 <? length (splitChar 46 t) + 1)%nat = true).
    { apply Nat.ltb_lt. destruct (splitChar 46 t); [done | cbn [length]; lia]. }
    by rewrite Hlen.
Qed.

(** X6. The helpers [isPDF] and [isDOCX] decide the same two conditions
    that [extractTextFromFile] dispatches on, so a file goes to the PDF
    extractor exactly when [isPDF] holds, and otherwise to the DOCX
    extractor exactly when [isDOCX] holds. *)
Theorem isPDF_isDOCX_dispatch (env : ParseResume.Env) (file : File) :
  isPDF file =
    (JS.eqb (type file) MIME_PDF || endsWith (js ".pdf") (toLowerCase (name file))) /\
  isDOCX file =
    (JS.eqb (type file) MIME_DOCX || endsWith (js ".docx") (toLowerCase (name file))) /\
  ParseResume.extractTextFromFile env file =
    (if isPDF file then
       let result := fst (PdfParser.extractTextFromPDF (ParseResume.newPDFParse env)
                            (content file)) in
       ParseResume.mkExtract (PdfParser.success result) (PdfParser.error result)
         (PdfParser.text result)
     else if isDOCX file then
       let result := DocxParser.extractTextFromDOCX (ParseResume.extractRawText env)
                       (content file) in
       ParseResume.mkExtract (DocxParser.success result) (DocxParser.error result)
         (DocxParser.text result)
     else ParseResume.mkExtract false (Some ParseResume.UNSUPPORTED) None).
Proof.
  assert (Hpdf : isPDF file =
            (JS.eqb (type file) MIME_PDF
             || endsWith (js ".pdf") (toLowerCase (name file)))).
  { unfold isPDF. f_equal.
    apply (getFileExtension_endsWith _ (js "pdf")). by repeat constructor. }
  assert (Hdocx : isDOCX file =
            (JS.eqb (type file) MIME_DOCX
             || endsWith (js ".docx") (toLowerCase (name file)))).
  { unfold isDOCX. f_equal.
    apply (getFileExtension_endsWith _ (js "docx")). by repeat constructor. }
  split; [exact Hpdf|]. split; [exact Hdocx|].
  unfold ParseResume.extractTextFromFile. by rewrite Hpdf, Hdocx.
Qed.

(** X7. A file that passed the declared-type check is always extracted:
    it goes to the PDF extractor when its type is [application/pdf] or
    its name ends in [.pdf], and to the DOCX extractor otherwise; the
    "Unsupported file type" answer cannot occur. *)
Theorem extractTextFromFile_after_validation (env : ParseResume.Env) (file : File) :
  valid (validateFileType file) = true ->
  ParseResume.extractTextFromFile env file =
    (if JS.eqb (type file) MIME_PDF || endsWith (js ".pdf") (toLowerCase (name file))
     then
       let result := fst (PdfParser.extractTextFromPDF (ParseResume.newPDFParse env)
                            (content file)) in
       ParseResume.mkExtract (PdfParser.success result) (PdfParser.error result)
         (PdfParser.text result)
     else
       let result := DocxParser.extractTextFromDOCX (ParseResume.extractRawText env)
                       (content file) in
       ParseResume.mkExtract (DocxParser.success result) (DocxParser.error result)
         (DocxParser.text result)).
Proof.
  rewrite validateFileType_valid. intros [_ Hext]%andb_true_iff.
  unfold ParseResume.extractTextFromFile.
  destruct (endsWith (js ".pdf") _) eqn:Hpdf; [by rewrite orb_true_r|].
  cbn [orb] in Hext. rewrite Hext, !orb_false_r, orb_true_r.
  by destruct (JS.eqb (type file) MIME_PDF).
Qed.

Lemma extractTextFromFile_after_validation_witness :
  ParseResume.ex_text
    (ParseResume.extractTextFromFile (Sample.envOf Sample.alice) Sample.mislabelled)
  = Some (js "Hello World").
Proof.
  rewrite (extractTextFromFile_after_validation (Sample.envOf Sample.alice)
             Sample.mislabelled); vm_compute; reflexivity.
Defined.

(** X8. The validator of the storage utilities checks less than the one
    of the upload action: it accepts a file exactly when the file is at
    most 10485760 bytes long and its MIME type is allowed, so it accepts
    every file the upload action's validator accepts. *)
Theorem storage_validateResumeFile_weaker (file : File) :
  (valid (Storage.validateResumeFile file) = true <->
     size file <= 10485760 /\ (type file = MIME_PDF \/ type file = MIME_DOCX)) /\
  implb (valid (validateResumeFile file)) (valid (Storage.validateResumeFile file)) = true.
Proof.
  assert (Hiff : valid (Storage.validateResumeFile file) = true <->
                 size file <= 10485760 /\ (type file = MIME_PDF \/ type file = MIME_DOCX)).
  { unfold Storage.validateResumeFile. change Storage.MAX_FILE_SIZE with 10485760.
    change (existsb (JS.eqb (type file)) Storage.ALLOWED_MIME)
      with (isAllowedMime (type file)).
    rewrite <- isAllowedMime_iff.
    destruct (N.ltb_spec 10485760 (size file)); cbn [valid invalid].
    - split; [done | lia].
    - destruct (isAllowedMime (type file)); cbn [negb valid invalid ok];
        split; try done; by intros [_ ?]. }
  split; [exact Hiff|].
  destruct (valid (validateResumeFile file)) eqn:Hfull; [|reflexivity].
  apply validateResumeFile_accepts_aux in Hfull as (_ & Hsize & Htype).
  cbn [implb]. apply Hiff. split; [exact Hsize|].
  rewrite validateFileType_valid in Htype.
  apply andb_true_iff in Htype as [Hmime _]. by apply isAllowedMime_iff.
Qed.

End ValidatorMore.

(* ===================================================================== *)
(** ** The two extractors: outcomes *)
(* ===================================================================== *)

Section Extractors.

Import PdfParser.

Lemma length_eqb_nil (s : jsstring) : (length s =? 0)%nat = false -> s <> [].
Proof. by destruct s. Qed.

(** X9. A successful PDF extraction means the buffer was not empty,
    every parser call returned and the text was not blank. The result
    then carries the normalized text, which is not empty, the number of
    pages and the metadata, and the parser was destroyed. *)
Theorem extractTextFromPDF_success
    (newPDFParse : buffer -> attempt PDFParse) (buf : buffer) :
  success (fst (extractTextFromPDF newPDFParse buf)) = true ->
  exists parser result info,
    buf <> [] /\
    newPDFParse buf = Returns parser /\
    getText parser = Returns result /\
    getInfo parser = Returns info /\
    destroy parser = Returns tt /\
    cleanText (text_of result) <> [] /\
    extractTextFromPDF newPDFParse buf =
      (mkResult true (Some (cleanText (text_of result))) None
         (Some (length (pages_of result), info)),
       [Acquired; Destroyed]).
Proof.
  unfold extractTextFromPDF, tryCatch, bind, await, emit, ret.
  assert (Hcatch : forall e, success (onError e) = false).
  { intros [m|]; unfold onError; [|reflexivity].
    destruct (includes _ m); [reflexivity|]. by destruct (includes _ m). }
  destruct buf as [|b buf]; cbn [length Nat.eqb]; [discriminate|].
  destruct (newPDFParse (b :: buf)) as [parser|e] eqn:Hnew; cbn [fst];
    [|by rewrite Hcatch].
  destruct (getText parser) as [result|e] eqn:Htext; cbn [fst];
    [|by rewrite Hcatch].
  destruct (getInfo parser) as [info|e] eqn:Hinfo; cbn [fst];
    [|by rewrite Hcatch].
  destruct (destroy parser) as [[]|e] eqn:Hdestroy; cbn [fst];
    [|by rewrite Hcatch].
  destruct (length (trim (text_of result)) =? 0)%nat eqn:Hblank; [discriminate|].
  intros _. exists parser, result, info.
  split; [done|]. do 4 (split; [done|]). split; [|reflexivity].
  apply cleanText_nonblank. by apply length_eqb_nil.
Qed.

Lemma extractTextFromPDF_success_witness :
  extractTextFromPDF Sample.helloParser Sample.pdfBytes =
    (mkResult true (Some (js "Hello World")) None (Some (1%nat, js "{}")),
     [Acquired; Destroyed]).
Proof.
  destruct (extractTextFromPDF_success Sample.helloParser Sample.pdfBytes)
    as (parser & result & info & _ & Hnew & Htext & Hinfo & _ & _ & Hrun).
  - vm_compute. reflexivity.
  - injection Hnew as <-. injection Htext as <-. injection Hinfo as <-.
    exact Hrun.
Defined.

(** X10. [parser.destroy()] is called exactly on the runs in which the
    buffer is not empty, the parser was created and both [getText] and
    [getInfo] returned, whether or not any text was found; on every
    other run it is not called. *)
Theorem extractTextFromPDF_destroys_iff
    (newPDFParse : buffer -> attempt PDFParse) (buf : buffer) :
  In Destroyed (snd (extractTextFromPDF newPDFParse buf)) <->
  buf <> [] /\
  exists parser result info,
    newPDFParse buf = Returns parser /\
    getText parser = Returns result /\
    getInfo parser = Returns info.
Proof.
  unfold extractTextFromPDF, tryCatch, bind, await, emit, ret.
  assert (Hno : ~ In Destroyed [Acquired]) by (intros [?|[]]; discriminate).
  destruct buf as [|b buf]; cbn [length Nat.eqb].
  { split; [intros [] | by intros [? _]]. }
  destruct (newPDFParse (b :: buf)) as [parser|e] eqn:Hnew; cbn [snd].
  2: { split; [intros [] | intros (_ & ? & ? & ? & [=] & _)]. }
  destruct (getText parser) as [result|e] eqn:Htext; cbn [snd].
  2: { split; [done | intros (_ & ? & ? & ? & [= <-] & Habs & _)]. congruence. }
  destruct (getInfo parser) as [info|e] eqn:Hinfo; cbn [snd].
  2: { split; [done | intros (_ & ? & ? & ? & [= <-] & _ & Habs)]. congruence. }
  assert (Hyes : In Destroyed [Acquired; Destroyed]) by (right; by left).
  assert (Hrhs : b :: buf <> [] /\
                 exists parser0 result0 info0,
                   Returns parser = Returns parser0 /\
                   getText parser0 = Returns result0 /\
                   getInfo parser0 = Returns info0).
  { split; [done|]. by exists parser, result, info. }
  destruct (destroy parser) as [[]|e]; cbn [snd];
    [destruct (length (trim (text_of result)) =? 0)%nat; cbn [snd]|];
    by split.
Qed.

(** X11. For a non-empty buffer that mammoth reads, the DOCX extraction
    succeeds exactly when no message is tagged as an error and the raw
    text is not blank; warnings never turn it into a failure. On success
    the text is the normalized one and is not empty, and the metadata
    lists the warnings. *)
Theorem extractTextFromDOCX_outcome
    (extractRawText : buffer -> attempt DocxParser.MammothResult)
    (buf : buffer) (result : DocxParser.MammothResult) :
  buf <> [] ->
  extractRawText buf = Returns result ->
  let outcome := DocxParser.extractTextFromDOCX extractRawText buf in
  let warnings :=
    List.map snd (List.filter DocxParser.isWarning (DocxParser.messages result)) in
  DocxParser.success outcome =
    negb (existsb DocxParser.isError (DocxParser.messages result))
    && negb (length (trim (DocxParser.value result)) =? 0)%nat /\
  (DocxParser.success outcome = true ->
     DocxParser.text outcome = Some (DocxParser.cleanText (DocxParser.value result)) /\
     DocxParser.cleanText (DocxParser.value result) <> [] /\
     DocxParser.metadata outcome =
       Some (if (0 <? length warnings)%nat then Some warnings else None)).
Proof.
  intros Hbuf Hread outcome warnings. subst outcome warnings.
  unfold DocxParser.extractTextFromDOCX. rewrite Hread.
  destruct buf as [|b buf]; [done|]. cbn [length Nat.eqb].
  destruct (existsb DocxParser.isError (DocxParser.messages result));
    cbn [negb andb]; [by split|].
  destruct (length (trim (DocxParser.value result)) =? 0)%nat eqn:Hblank;
    cbn [negb]; [by split|].
  split; [reflexivity|]. intros _. repeat split.
  apply cleanText_nonblank. by apply length_eqb_nil.
Qed.

Lemma extractTextFromDOCX_outcome_witness :
  DocxParser.success
    (DocxParser.extractTextFromDOCX Sample.warningMammoth (js "PK-docx")) = true.
Proof.
  destruct (extractTextFromDOCX_outcome Sample.warningMammoth (js "PK-docx")
              (DocxParser.mkMammoth (js "Hello World")
                 [(DocxParser.warning_msg, js "Unrecognised paragraph style")]))
    as [Hsuccess _].
  - vm_compute. discriminate.
  - reflexivity.
  - rewrite Hsuccess. vm_compute. reflexivity.
Defined.

Lemma onError_encrypted (e : exn) :
  onError e = failure ENCRYPTED <->
  exists message,
    e = Error message /\
    includes (js "Invalid PDF") message = false /\
    includes (js "password") message = true.
Proof.
  destruct e as [message|]; unfold onError.
  - destruct (includes (js "Invalid PDF") message) eqn:Hinvalid.
    + split; [intros H; cbv in H; discriminate|].
      intros (m & [= <-] & Hno & _). congruence.
    + destruct (includes (js "password") message) eqn:Hpassword.
      * split; [by exists message | done].
      * split; [intros H; cbv in H; discriminate|].
        intros (m & [= <-] & _ & Hyes). congruence.
  - split; [intros H; cbv in H; discriminate | intros (m & Hm & _); discriminate].
Qed.

(** X23. The PDF extraction answers "password-protected" exactly when
    the buffer is not empty and the first exception of the parser is an
    [Error] whose message contains "password" and does not contain
    "Invalid PDF": the corrupted-file answer takes precedence. *)
Theorem extractTextFromPDF_encrypted_iff
    (newPDFParse : buffer -> attempt PDFParse) (buf : buffer) :
  fst (extractTextFromPDF newPDFParse buf) = failure ENCRYPTED <->
  buf <> [] /\
  exists message,
    Spec.thrownBy newPDFParse buf = Some (Error message) /\
    includes (js "Invalid PDF") message = false /\
    includes (js "password") message = true.
Proof.
  unfold extractTextFromPDF, Spec.thrownBy, tryCatch, bind, await, emit, ret.
  assert (Hthrown : forall e,
             onError e = failure ENCRYPTED <->
             True /\
             exists message,
               Some e = Some (Error message) /\
               includes (js "Invalid PDF") message = false /\
               includes (js "password") message = true).
  { intros e. rewrite onError_encrypted. split.
    - intros (m & -> & Hm). split; [exact I|]. by exists m.
    - intros (_ & m & [= ->] & Hm). by exists m. }
  destruct buf as [|b buf]; cbn [length Nat.eqb].
  - split; [intros H; cbv in H; discriminate | intros [? _]; done].
  - assert (Hne : b :: buf <> [] <-> True) by (by split).
    rewrite Hne.
    destruct (newPDFParse (b :: buf)) as [parser|e]; cbn [fst]; [|apply Hthrown].
    destruct (getText parser) as [result|e]; cbn [fst]; [|apply Hthrown].
    destruct (getInfo parser) as [info|e]; cbn [fst]; [|apply Hthrown].
    destruct (destroy parser) as [[]|e]; cbn [fst]; [|apply Hthrown].
    split; [|intros (_ & m & Hm & _); discriminate].
    destruct (length (trim (text_of result)) =? 0)%nat; cbn [fst];
      intros H; [cbv in H|]; discriminate.
Qed.

End Extractors.

(* ===================================================================== *)
(** ** Ingestion Orchestrator: paths, titles and locators *)
(* ===================================================================== *)

Section Paths.

Import FileValidation ParseResume.

Lemma isSafeUnit_fixed (c : N) :
  Spec.isSafeUnit
    (if isAlnum c || (c =? 46) || (c =? 95) || (c =? 45) then c else 95) = true.
Proof.
  destruct (isAlnum c || (c =? 46) || (c =? 95) || (c =? 45)) eqn:Hc;
    [exact Hc | reflexivity].
Qed.

(** X12. The sanitized file name has the length of the original, holds
    only letters, digits, dots, underscores and hyphens, and sanitizing
    it again changes nothing; a name that is already safe is returned as
    it is. *)
Theorem safeFilename_safe (filename : jsstring) :
  length (safeFilename filename) = length filename /\
  forallb Spec.isSafeUnit (safeFilename filename) = true /\
  safeFilename (safeFilename filename) = safeFilename filename /\
  implb (forallb Spec.isSafeUnit filename)
    (JS.eqb (safeFilename filename) filename) = true.
Proof.
  unfold safeFilename. split; [apply length_map|].
  split; [|split].
  - induction filename as [|c n IH]; [reflexivity|].
    cbn [List.map forallb]. by rewrite isSafeUnit_fixed, IH.
  - induction filename as [|c n IH]; [reflexivity|].
    cbn [List.map]. rewrite IH. f_equal.
    pose proof (isSafeUnit_fixed c) as Hc. unfold Spec.isSafeUnit in Hc.
    by rewrite Hc.
  - destruct (forallb Spec.isSafeUnit filename) eqn:Hsafe; [|reflexivity].
    cbn [implb]. apply bool_decide_eq_true.
    induction filename as [|c n IH]; [reflexivity|].
    cbn [forallb] in Hsafe. apply andb_true_iff in Hsafe as [Hc Hn].
    cbn [List.map]. rewrite (IH Hn). unfold Spec.isSafeUnit in Hc. by rewrite Hc.
Qed.

(** *** Titles *)

Lemma join_hasUnit (c : N) (sep : jsstring) (ls : list jsstring) :
  Spec.hasUnit c sep = false ->
  Forall (fun l => Spec.hasUnit c l = false) ls ->
  Spec.hasUnit c (join sep ls) = false.
Proof.
  intros Hsep. induction 1 as [|l ls Hl Hls IH]; [reflexivity|].
  destruct ls as [|l' ls]; [exact Hl|].
  change (join sep (l :: l' :: ls)) with (l ++ sep ++ join sep (l' :: ls)).
  unfold Spec.hasUnit in *. by rewrite !existsb_app, Hl, Hsep, IH.
Qed.

Lemma splitChar_hasUnit (c d : N) (s : jsstring) :
  Spec.hasUnit c s = false ->
  Forall (fun l => Spec.hasUnit c l = false) (splitChar d s).
Proof.
  induction s as [|x s IH]; [by repeat constructor|].
  cbn [Spec.hasUnit existsb]. fold (Spec.hasUnit c s).
  intros [Hx Hs]%orb_false_iff. specialize (IH Hs). cbn [splitChar].
  destruct (x =? d); [by constructor|].
  destruct (splitChar d s) as [|l ls].
  { constructor; [|constructor]. cbn. by rewrite Hx. }
  apply Forall_cons in IH as [Hl Hls]. constructor; [|done].
  cbn [Spec.hasUnit existsb]. fold (Spec.hasUnit c l). by rewrite Hx, Hl.
Qed.

Lemma hasUnit_app (c : N) (a b : jsstring) :
  Spec.hasUnit c (a ++ b) = Spec.hasUnit c a || Spec.hasUnit c b.
Proof. apply existsb_app. Qed.

Lemma capitalize_hasUnit (tables : CaseTables) (c : N) (word : jsstring) :
  Spec.keepsOut tables c ->
  Spec.hasUnit c word = false -> Spec.hasUnit c (capitalize tables word) = false.
Proof.
  intros Htables Hword. unfold capitalize.
  rewrite <- (take_drop 1 word), hasUnit_app in Hword.
  apply orb_false_iff in Hword as [Hhead Htail].
  rewrite hasUnit_app.
  destruct (Htables _ Hhead) as [-> _]. by destruct (Htables _ Htail) as [_ ->].
Qed.

(** The ASCII tables bring in no code unit that is not a letter. *)
Lemma asciiTables_keepsOut (c : N) :
  c < 65 \/ (90 < c /\ c < 97) \/ 122 < c -> Spec.keepsOut Sample.asciiTables c.
Proof.
  intros Hc.
  assert (Hmap : forall (f : N -> N) (s : jsstring),
             (forall x, (c =? x) = false -> (c =? f x) = false) ->
             Spec.hasUnit c s = false -> Spec.hasUnit c (List.map f s) = false).
  { intros f s Hf. induction s as [|x s IH]; [done|].
    cbn [Spec.hasUnit existsb List.map]. fold (Spec.hasUnit c s).
    fold (Spec.hasUnit c (List.map f s)).
    intros [Hx Hs]%orb_false_iff. by rewrite (Hf x Hx), IH. }
  intros s Hs. split; apply Hmap; try done;
    intros x Hx%N.eqb_neq; apply N.eqb_neq.
  - unfold upperUnit. destruct (_ && _) eqn:Hup; [|done].
    apply andb_true_iff in Hup as [?%N.leb_le ?%N.leb_le]. lia.
  - unfold lowerUnit. destruct (_ && _) eqn:Hlow; [|done].
    apply andb_true_iff in Hlow as [?%N.leb_le ?%N.leb_le]. lia.
Qed.

Lemma generateResumeTitle_nonempty (tables : CaseTables) (filename : jsstring) :
  generateResumeTitle tables filename <> [].
Proof.
  unfold generateResumeTitle.
  destruct (length _ =? 0)%nat eqn:Hlen; [done|]. by apply length_eqb_nil.
Qed.

(** X13. A title generated from a file name is never empty. When the
    case conversion of the runtime brings neither an underscore nor a
    hyphen into text that has none, as the Unicode tables do, the title
    holds no underscore and no hyphen. *)
Theorem generateResumeTitle_clean (tables : CaseTables) (filename : jsstring) :
  Spec.keepsOut tables 95 ->
  Spec.keepsOut tables 45 ->
  generateResumeTitle tables filename <> [] /\
  Spec.hasUnit 95 (generateResumeTitle tables filename) = false /\
  Spec.hasUnit 45 (generateResumeTitle tables filename) = false.
Proof.
  intros Hkeep95 Hkeep45.
  split; [apply generateResumeTitle_nonempty|].
  unfold generateResumeTitle.
  set (cleaned := List.map _ (stripExtension filename)).
  assert (Hcleaned : Spec.hasUnit 95 cleaned = false /\ Spec.hasUnit 45 cleaned = false).
  { subst cleaned. induction (stripExtension filename) as [|x s [IH95 IH45]];
      [done|].
    cbn [List.map Spec.hasUnit existsb].
    fold (Spec.hasUnit 95 (List.map (fun c => if (c =? 95) || (c =? 45) then SP else c) s)).
    fold (Spec.hasUnit 45 (List.map (fun c => if (c =? 95) || (c =? 45) then SP else c) s)).
    rewrite IH95, IH45, !orb_false_r.
    destruct (N.eqb_spec x 95) as [->|H95]; [done|].
    destruct (N.eqb_spec x 45) as [->|H45]; [done|].
    cbn [orb]. split; apply N.eqb_neq; congruence. }
  destruct Hcleaned as [H95 H45].
  assert (Htitle : forall c, Spec.keepsOut tables c -> c <> SP ->
             Spec.hasUnit c cleaned = false ->
             Spec.hasUnit c (join [SP] (List.map (capitalize tables)
                                          (splitChar SP cleaned))) = false).
  { intros c Hc Hsp Hclean. apply join_hasUnit.
    - cbn. rewrite orb_false_r. by apply N.eqb_neq.
    - apply Forall_map. eapply Forall_impl; [by apply splitChar_hasUnit|].
      intros l Hl. by apply capitalize_hasUnit. }
  destruct (length _ =? 0)%nat; [by split|].
  split; apply Htitle; try done.
Qed.

Lemma generateResumeTitle_clean_witness :
  Spec.hasUnit 95
    (generateResumeTitle Sample.asciiTables (js "john_doe-resume_2024.pdf")) = false.
Proof.
  apply (generateResumeTitle_clean Sample.asciiTables (js "john_doe-resume_2024.pdf"));
    apply asciiTables_keepsOut; lia.
Defined.

(** *** Locators *)

Lemma splitFrom_skip (sep : jsstring) (l rest cur : jsstring) :
  splitFrom sep (length l) cur (l ++ rest) = splitFrom sep 0 cur rest.
Proof.
  induction l as [|x l IH]; [|exact IH].
  destruct rest; reflexivity.
Qed.

Lemma startsWith_app (p s : jsstring) : startsWith p (p ++ s) = true.
Proof. apply startsWith_iff. by exists s. Qed.

Lemma startsWith_longer (p a b : jsstring) :
  (length p <= length a)%nat -> startsWith p (a ++ b) = startsWith p a.
Proof.
  revert a. induction p as [|x p IH]; intros a Hlen; [reflexivity|].
  destruct a as [|y a]; cbn [length] in Hlen; [lia|].
  cbn [app startsWith]. rewrite IH by lia. reflexivity.
Qed.

(** A separator that occurs once, and not across the seam before it,
    cuts the string in two. *)
Lemma split_once (sep pre post : jsstring) :
  sep <> [] ->
  includes sep (pre ++ List.removelast sep) = false ->
  includes sep post = false ->
  split sep (pre ++ sep ++ post) = [pre; post].
Proof.
  intros Hsep Hpre Hpost. unfold split.
  assert (Hcut : sep = List.removelast sep ++ [List.last sep 0])
    by (by apply List.app_removelast_last).
  assert (Hlen : length sep = S (length (List.removelast sep))).
  { rewrite Hcut at 1. rewrite length_app. cbn [length]. lia. }
  assert (Hgen : forall cur,
             splitFrom sep 0 cur (pre ++ sep ++ post) = [rev cur ++ pre; post]).
  { induction pre as [|x pre IH]; intros cur.
    - destruct sep as [|c sep']; [done|]. cbn [app splitFrom].
      change (c :: sep' ++ post) with ((c :: sep') ++ post).
      rewrite startsWith_app. cbn [length Nat.pred].
      rewrite splitFrom_skip, splitFrom_absent by done.
      by rewrite app_nil_r.
    - cbn [app includes] in Hpre. apply orb_false_iff in Hpre as [Hhere Hlater].
      cbn [app splitFrom].
      assert (Hno : startsWith sep (x :: pre ++ sep ++ post) = false).
      { replace (x :: pre ++ sep ++ post)
          with ((x :: pre ++ List.removelast sep) ++ ([List.last sep 0] ++ post)).
        - rewrite startsWith_longer; [exact Hhere|].
          cbn [length]. rewrite length_app. lia.
        - rewrite Hcut at 3. cbn [app]. by rewrite <- !app_assoc. }
      rewrite Hno, (IH Hlater). cbn [rev]. by rewrite <- app_assoc. }
  apply Hgen.
Qed.

(** The public address of a path splits at the bucket segment. *)
Lemma split_getPublicUrl (env : Env) (path : jsstring) :
  includes (js "/resumes/") (storage_url env ++ js "/object/public/resumes") = false ->
  includes (js "/resumes/") path = false ->
  split (js "/resumes/") (getPublicUrl env path)
  = [storage_url env ++ js "/object/public"; path].
Proof.
  intros Hbase Hpath. unfold getPublicUrl.
  replace (storage_url env ++ js "/object/public/resumes/" ++ path)
    with ((storage_url env ++ js "/object/public") ++ js "/resumes/" ++ path)
    by (by rewrite <- app_assoc).
  apply split_once; [done | | exact Hpath].
  by rewrite <- app_assoc.
Qed.

(** X14. The locator written at upload time is read back at deletion
    time: when "/resumes/" occurs neither in the path nor in the storage
    address up to the bucket segment, [extractFilePathFromUrl] returns
    the path that [getPublicUrl] was given. *)
Theorem extractFilePathFromUrl_getPublicUrl
    (env : Env) (path userId : jsstring) :
  includes (js "/resumes/") (storage_url env ++ js "/object/public/resumes") = false ->
  includes (js "/resumes/") path = false ->
  extractFilePathFromUrl (getPublicUrl env path) userId = Some path.
Proof.
  intros Hbase Hpath. unfold extractFilePathFromUrl.
  by rewrite split_getPublicUrl.
Qed.

Lemma extractFilePathFromUrl_getPublicUrl_witness :
  extractFilePathFromUrl (getPublicUrl (Sample.envOf Sample.alice) Sample.alicePath)
    Sample.alice
  = Some Sample.alicePath.
Proof.
  apply (extractFilePathFromUrl_getPublicUrl (Sample.envOf Sample.alice)
           Sample.alicePath Sample.alice); vm_compute; reflexivity.
Defined.

(** The pieces of a split, joined by the separator, give the string
    back. *)
Lemma join_splitFrom (sep : jsstring) :
  sep <> [] ->
  forall (n : nat) (s cur : jsstring),
    (length s <= n)%nat ->
    join sep (splitFrom sep 0 cur s) = rev cur ++ s.
Proof.
  intros Hsep. induction n as [|n IH]; intros s cur Hn.
  - destruct s; [|cbn in Hn; lia]. cbn. by rewrite app_nil_r.
  - destruct s as [|x s]; [cbn; by rewrite app_nil_r|].
    cbn [splitFrom]. destruct (startsWith sep (x :: s)) eqn:Hhere.
    + apply startsWith_iff in Hhere as [rest Hrest].
      destruct sep as [|c sep']; [done|]. injection Hrest as -> ->.
      cbn [length Nat.pred]. rewrite splitFrom_skip.
      assert (Hrec : join (c :: sep') (splitFrom (c :: sep') 0 [] rest) = rest).
      { apply (IH rest []). cbn [length] in Hn. rewrite length_app in Hn. lia. }
      destruct (splitFrom (c :: sep') 0 [] rest) as [|l ls] eqn:Hparts.
      * destruct rest; cbn [splitFrom] in Hparts; [discriminate|].
        destruct (startsWith _ _); discriminate.
      * change (join (c :: sep') (rev cur :: l :: ls))
          with (rev cur ++ (c :: sep') ++ join (c :: sep') (l :: ls)).
        by rewrite Hrec.
    + rewrite IH by (cbn [length] in Hn; lia). cbn [rev]. by rewrite <- app_assoc.
Qed.

(** X15. Whatever [extractFilePathFromUrl] returns is what follows
    "/resumes/" in the locator: the locator is some prefix, then
    "/resumes/", then the returned path. *)
Theorem extractFilePathFromUrl_sound (url userId path : jsstring) :
  extractFilePathFromUrl url userId = Some path ->
  exists pre, url = pre ++ js "/resumes/" ++ path.
Proof.
  unfold extractFilePathFromUrl, split. intros Hparts.
  pose proof (join_splitFrom (js "/resumes/") ltac:(done) _ url [] (le_n _)) as Hjoin.
  destruct (splitFrom (js "/resumes/") 0 [] url) as [|pre [|p [|q ps]]] eqn:Hsplit;
    try discriminate.
  injection Hparts as ->. exists pre.
  change (pre ++ js "/resumes/" ++ path = url) in Hjoin. by symmetry.
Qed.

Lemma extractFilePathFromUrl_sound_witness :
  exists pre, file_url Sample.aliceRow = pre ++ js "/resumes/" ++ Sample.alicePath.
Proof.
  apply (extractFilePathFromUrl_sound (file_url Sample.aliceRow) Sample.alice
           Sample.alicePath).
  vm_compute. reflexivity.
Defined.

End Paths.

(* ===================================================================== *)
(** ** Ingestion Orchestrator: what a request does to the two stores *)
(* ===================================================================== *)

Section Requests.

Import FileValidation ParseResume.

(** The two ways an upload can end. *)
Lemma uploadResumeFile_cases (env : Env) (file : File) (userId : jsstring) (w : World) :
  let path := filePathOf env file userId in
  let result := fst (uploadResumeFile env file userId w) in
  let w' := snd (uploadResumeFile env file userId w) in
  (up_success result = false /\
   (exists reason, up_error result = Some (js "Failed to upload file: " ++ reason)) /\
   (is_Some (upload_fault env) \/ is_Some (objects w !! path)) /\
   w' = mkWorld (objects w) (resumes w) (calls w ++ [StorageUpload path]))
  \/
  (result = mkUpload true None (Some path) (Some (getPublicUrl env path)) /\
   upload_fault env = None /\ objects w !! path = None /\
   w' = mkWorld (<[path := content file]> (objects w)) (resumes w)
          (calls w ++ [StorageUpload path])).
Proof.
  intros path result w'. subst result w'.
  unfold uploadResumeFile, storage_upload, logCall. fold path.
  cbn [objects resumes calls].
  destruct (upload_fault env) as [reason|] eqn:Hfault.
  - left. cbn [fst snd up_success up_error]. repeat split; eauto.
  - destruct (objects w !! path) as [stored|] eqn:Hstored.
    + left. cbn [fst snd up_success up_error]. repeat split; eauto.
    + right. by cbn [fst snd].
Qed.

(** With [upsert] set the same request would have replaced the stored
    object. *)
Lemma storage_upload_upsert (env : Env) (path : jsstring) (file : File)
    (w : World) (stored : buffer) :
  upload_fault env = None ->
  objects w !! path = Some stored ->
  fst (storage_upload env path file true w) = inr path /\
  objects (snd (storage_upload env path file true w)) !! path = Some (content file).
Proof.
  intros Hfault Hstored. unfold storage_upload, logCall.
  cbn [objects resumes calls]. rewrite Hfault, Hstored.
  cbn [fst snd objects]. split; [reflexivity | apply lookup_insert_eq].
Qed.

(** X16. An upload never overwrites: [uploadResumeFile] asks the blob
    store not to replace an existing object ([upsert: false]), so when
    an object is already stored under the generated path it fails with a
    message that starts "Failed to upload file: " and the bucket is
    unchanged. *)
Theorem uploadResumeFile_never_overwrites
    (env : Env) (file : File) (userId : jsstring) (w : World) (stored : buffer) :
  objects w !! filePathOf env file userId = Some stored ->
  up_success (fst (uploadResumeFile env file userId w)) = false /\
  (exists reason,
     up_error (fst (uploadResumeFile env file userId w))
     = Some (js "Failed to upload file: " ++ reason)) /\
  objects (snd (uploadResumeFile env file userId w)) = objects w.
Proof.
  intros Hstored.
  destruct (uploadResumeFile_cases env file userId w)
    as [(Hfail & Hmsg & _ & Hworld)|(_ & _ & Hfree & _)];
    [|congruence].
  split; [exact Hfail|]. split; [exact Hmsg|]. by rewrite Hworld.
Qed.

Lemma uploadResumeFile_never_overwrites_witness :
  objects (snd (uploadResumeFile (Sample.envOf Sample.alice) Sample.resumePdf
                  Sample.alice Sample.aliceWorld))
  = objects Sample.aliceWorld.
Proof.
  apply (uploadResumeFile_never_overwrites (Sample.envOf Sample.alice)
           Sample.resumePdf Sample.alice Sample.aliceWorld Sample.pdfBytes).
  vm_compute. reflexivity.
Defined.

Lemma orElse_nonempty (x : option jsstring) (fallback : jsstring) :
  fallback <> [] -> orElse x fallback <> [].
Proof. intros Hfb. by destruct x as [[|c s]|]. Qed.

(** What a successful ingestion has done. *)
Lemma parseResume_success_aux (env : Env) (formData : FormData) (w : World) :
  success (fst (parseResume env formData w)) = true ->
  exists file userId,
    let path := filePathOf env file userId in
    let extraction := extractTextFromFile env file in
    let row :=
      mkResume (fresh_id env) userId
        (orElse (form_title formData)
           (generateResumeTitle (case_tables env) (name file)))
        (getPublicUrl env path) (ex_text extraction) (Some (size file))
        (Some (if JS.eqb (type file) MIME_PDF then pdf else docx)) in
    form_file formData = Some file /\
    valid (validateResumeFile file) = true /\
    auth_user env = Some userId /\
    ex_success extraction = true /\
    objects w !! path = None /\
    resumes w !! fresh_id env = None /\
    objects (snd (parseResume env formData w)) = <[path := content file]> (objects w) /\
    resumes (snd (parseResume env formData w)) = <[fresh_id env := row]> (resumes w) /\
    data (fst (parseResume env formData w)) =
      Some (mkData (fresh_id env) (title row) (file_url row)
              (substring0 500 (the (ex_text extraction)) ++ js "...")).
Proof.
  unfold parseResume.
  destruct (form_file formData) as [file|]; [|discriminate].
  destruct (valid (validateResumeFile file)) eqn:Hvalid; cbn [negb]; [|discriminate].
  destruct (auth_user env) as [userId|] eqn:Hauth; [|discriminate].
  pose proof (uploadResumeFile_cases env file userId w) as Hupload.
  destruct (uploadResumeFile env file userId w) as [uploadResult w1].
  cbn [fst snd] in Hupload.
  destruct Hupload as [(Hfail & _)|(-> & _ & Hfree & ->)].
  { rewrite Hfail. discriminate. }
  cbn [up_success negb filePath up_fileUrl the default].
  destruct (ex_success (extractTextFromFile env file)) eqn:Hextract; cbn [negb];
    [|discriminate].
  unfold db_insert, logCall. cbn [objects resumes calls].
  destruct (insert_fault env); [discriminate|].
  destruct (resumes w !! fresh_id env) eqn:Hfresh; [discriminate|].
  intros _. exists file, userId. cbn [fst snd objects resumes data].
  by repeat split.
Qed.

(** X17. A successful ingestion stores the uploaded bytes under the
    generated path and one row under a fresh id, both places empty
    before. The row belongs to the signed-in user, points at the public
    address of that path, records the byte length of the file and has a
    title that is not empty; the answer to the caller holds the row's
    id, title and address and a preview of at most 503 code units. *)
Theorem parseResume_success (env : Env) (formData : FormData) (w : World) :
  success (fst (parseResume env formData w)) = true ->
  exists file userId row answer,
    let path := filePathOf env file userId in
    form_file formData = Some file /\
    auth_user env = Some userId /\
    objects w !! path = None /\
    resumes w !! fresh_id env = None /\
    objects (snd (parseResume env formData w)) = <[path := content file]> (objects w) /\
    resumes (snd (parseResume env formData w)) = <[fresh_id env := row]> (resumes w) /\
    user_id row = userId /\
    file_url row = getPublicUrl env path /\
    file_size row = Some (N.of_nat (length (content file))) /\
    title row <> [] /\
    data (fst (parseResume env formData w)) = Some answer /\
    resumeId answer = fresh_id env /\
    data_title answer = title row /\
    fileUrl answer = file_url row /\
    (length (textPreview answer) <= 503)%nat.
Proof.
  intros Hsuccess.
  destruct (parseResume_success_aux env formData w Hsuccess)
    as (file & userId & Hfile & _ & Hauth & _ & Hfree & Hfresh & Hobjects & Hrows & Hdata).
  cbv zeta in *.
  eexists file, userId, _, _. cbv zeta.
  split; [exact Hfile|]. split; [exact Hauth|]. split; [exact Hfree|].
  split; [exact Hfresh|]. split; [exact Hobjects|]. split; [exact Hrows|].
  cbn [user_id file_url file_size title].
  split; [reflexivity|]. split; [reflexivity|]. split; [reflexivity|].
  split; [apply orElse_nonempty, generateResumeTitle_nonempty|].
  split; [exact Hdata|]. cbn [resumeId data_title fileUrl textPreview].
  split; [reflexivity|]. split; [reflexivity|]. split; [reflexivity|].
  unfold substring0. rewrite length_app, length_take.
  change (length (js "...")) with 3%nat. lia.
Qed.

Lemma parseResume_success_witness :
  exists file userId row answer,
    Some Sample.resumePdf = Some file /\
    Some Sample.alice = Some userId /\
    objects (snd (parseResume (Sample.envOf Sample.alice)
                    (mkForm (Some Sample.resumePdf) None) Sample.emptyWorld))
      = <[filePathOf (Sample.envOf Sample.alice) file userId := content file]> ∅ /\
    user_id row = userId /\
    data (fst (parseResume (Sample.envOf Sample.alice)
                 (mkForm (Some Sample.resumePdf) None) Sample.emptyWorld))
      = Some answer.
Proof.
  destruct (parseResume_success (Sample.envOf Sample.alice)
              (mkForm (Some Sample.resumePdf) None) Sample.emptyWorld)
    as (file & userId & row & answer & Hfile & Hauth & _ & _ & Hobjects & _
        & Howner & _ & _ & _ & Hdata & _).
  - vm_compute. reflexivity.
  - exists file, userId, row, answer. by repeat split.
Defined.

(** X18. A failed ingestion leaves no trace: whenever [parseResume]
    reports failure the table is as it was, and once the blob store has
    carried out the compensating delete the bucket is as it was too. *)
Theorem parseResume_failure_restores (env : Env) (formData : FormData) (w : World) :
  success (fst (parseResume env formData w)) = false ->
  resumes (snd (parseResume env formData w)) = resumes w /\
  (remove_fault env = false ->
     objects (snd (parseResume env formData w)) = objects w).
Proof.
  unfold parseResume.
  destruct (form_file formData) as [file|]; [|done].
  destruct (valid (validateResumeFile file)); cbn [negb]; [|done].
  destruct (auth_user env) as [userId|]; [|done].
  pose proof (uploadResumeFile_cases env file userId w) as Hupload.
  destruct (uploadResumeFile env file userId w) as [uploadResult w1].
  cbn [fst snd] in Hupload.
  destruct Hupload as [(Hfail & _ & _ & ->)|(-> & _ & Hfree & ->)].
  { rewrite Hfail. by cbn [negb snd objects resumes]. }
  cbn [up_success negb filePath up_fileUrl the default].
  assert (Hundo : forall calls0 : list Call,
             let w2 := storage_remove env [filePathOf env file userId]
                         (mkWorld (<[filePathOf env file userId := content file]> (objects w))
                            (resumes w) calls0) in
             resumes w2 = resumes w /\
             (remove_fault env = false -> objects w2 = objects w)).
  { intros calls0. unfold storage_remove, logCall. cbn [objects resumes calls foldr].
    destruct (remove_fault env); cbn [objects resumes]; split; try done.
    intros _. by rewrite delete_insert_eq, delete_id. }
  destruct (ex_success (extractTextFromFile env file)); cbn [negb].
  2: { intros _. cbn [snd]. apply Hundo. }
  unfold db_insert, logCall. cbn [objects resumes calls].
  destruct (insert_fault env).
  { intros _. cbn [snd]. apply Hundo. }
  destruct (resumes w !! fresh_id env); [|discriminate].
  intros _. cbn [snd]. apply Hundo.
Qed.

Lemma parseResume_failure_restores_witness :
  objects (snd (parseResume (Sample.envInsertFails Sample.alice)
                  (mkForm (Some Sample.resumePdf) None) Sample.emptyWorld))
  = ∅.
Proof.
  apply (parseResume_failure_restores (Sample.envInsertFails Sample.alice)
           (mkForm (Some Sample.resumePdf) None) Sample.emptyWorld);
    vm_compute; reflexivity.
Defined.



(** X20. When the datastore refuses to delete the row, the owner is told
    "Failed to delete resume" and the blob is not touched: the row and
    the bucket are as before and no request goes to the blob store. *)
Theorem deleteResume_keeps_blob_on_failure
    (env : Env) (resumeId reason : jsstring) (resume : Resume) (w : World) :
  db_select env resumeId w = Some resume ->
  auth_user env = Some (user_id resume) ->
  delete_fault env = Some reason ->
  deleteResume env resumeId w =
    (mkDelete false (Some DELETE_FAILED),
     mkWorld (objects w) (resumes w) (calls w ++ [DbDelete resumeId])).
Proof.
  intros Hrow Hauth Hfault. unfold deleteResume.
  rewrite Hrow, Hauth. unfold JS.eqb.
  rewrite bool_decide_eq_true_2 by done. cbn [negb].
  unfold db_delete, logCall. by rewrite Hfault.
Qed.

Lemma deleteResume_keeps_blob_witness :
  deleteResume (Sample.envDeleteFails Sample.alice) (js "resume-1") Sample.aliceWorld
  = (mkDelete false (Some DELETE_FAILED),
     mkWorld (objects Sample.aliceWorld) (resumes Sample.aliceWorld)
       [DbDelete (js "resume-1")]).
Proof.
  apply (deleteResume_keeps_blob_on_failure (Sample.envDeleteFails Sample.alice)
           (js "resume-1") (js "permission denied for table resumes")
           Sample.aliceRow Sample.aliceWorld);
    vm_compute; reflexivity.
Defined.

Lemma filePathOf_truthy (env : Env) (file : File) (userId : jsstring) :
  truthy (Some (filePathOf env file userId)) = true.
Proof. unfold filePathOf. by destruct userId. Qed.

(** X21. Ingesting a file and then deleting the new resume brings both
    stores back to where they were: when every collaborator call of the
    deletion succeeds and "/resumes/" occurs neither in the generated
    path nor in the storage address up to the bucket segment, the blob
    that the ingestion stored is the one the deletion removes. *)
Theorem parseResume_then_deleteResume
    (env : Env) (formData : FormData) (file : File) (userId : jsstring) (w : World) :
  let ingested := parseResume env formData w in
  let deleted := deleteResume env (fresh_id env) (snd ingested) in
  success (fst ingested) = true ->
  form_file formData = Some file ->
  auth_user env = Some userId ->
  includes (js "/resumes/") (storage_url env ++ js "/object/public/resumes") = false ->
  includes (js "/resumes/") (filePathOf env file userId) = false ->
  select_fault env = false ->
  delete_fault env = None ->
  remove_fault env = false ->
  del_success (fst deleted) = true /\
  objects (snd deleted) = objects w /\
  resumes (snd deleted) = resumes w.
Proof.
  intros ingested deleted Hsuccess Hfile Hauth Hbase Hpath Hselect Hdelete Hremove.
  subst deleted ingested.
  destruct (parseResume_success_aux env formData w Hsuccess)
    as (file' & userId' & Hfile' & _ & Hauth' & _ & Hfree & Hfresh & Hobjects & Hrows & _).
  cbv zeta in *.
  assert (file' = file) as -> by congruence.
  assert (userId' = userId) as -> by congruence.
  destruct (snd (parseResume env formData w)) as [objects1 resumes1 calls1].
  cbn [objects resumes] in Hobjects, Hrows. subst objects1 resumes1.
  match goal with
  | |- context [deleteResume env (fresh_id env) ?w1] =>
      assert (Hdeleted :
                exists calls2,
                  deleteResume env (fresh_id env) w1 =
                    (mkDelete true None, mkWorld (objects w) (resumes w) calls2))
  end.
  { unfold deleteResume, db_select. rewrite Hselect, Hauth. cbn [resumes].
    rewrite lookup_insert_eq. unfold visibleTo. cbn [user_id file_url].
    rewrite (bool_decide_eq_true_2 (Some userId = Some userId)) by done.
    cbn [user_id file_url].
    unfold JS.eqb at 1. rewrite (bool_decide_eq_true_2 (userId = userId)) by done.
    cbn [negb].
    unfold extractFilePathFromUrl. rewrite split_getPublicUrl by done.
    unfold db_delete, logCall. rewrite Hdelete. cbn [objects resumes calls].
    rewrite filePathOf_truthy.
    unfold storage_remove, logCall, the. rewrite Hremove.
    cbn [objects resumes calls foldr default].
    eexists. by rewrite !delete_insert_eq, !delete_id. }
  destruct Hdeleted as [calls2 ->]. by cbn [fst snd del_success objects resumes].
Qed.

Lemma parseResume_then_deleteResume_witness :
  objects (snd (deleteResume (Sample.envOf Sample.alice) (js "resume-1")
                  (snd (parseResume (Sample.envOf Sample.alice)
                          (mkForm (Some Sample.resumePdf) None) Sample.emptyWorld))))
  = ∅.
Proof.
  apply (parseResume_then_deleteResume (Sample.envOf Sample.alice)
           (mkForm (Some Sample.resumePdf) None) Sample.resumePdf Sample.alice
           Sample.emptyWorld);
    vm_compute; reflexivity.
Defined.

End Requests.

(* ===================================================================== *)
(** ** Environment check *)
(* ===================================================================== *)

Section Environment.

Import VerifyEnv.

(** X22. The environment check passes exactly when the address is set,
    starts with "https://" and contains ".supabase.co", and the key is
    set; the form of the key plays no part. The status message is the
    success one exactly then, and an error message always lists at least
    one issue. *)
Theorem verifySupabaseEnv_allValid (supabaseUrl supabaseAnonKey : option jsstring) :
  (allValid (verifySupabaseEnv supabaseUrl supabaseAnonKey) = true <->
     exists url key,
       supabaseUrl = Some url /\ supabaseAnonKey = Some key /\ key <> [] /\
       startsWith (js "https://") url = true /\
       includes (js ".supabase.co") url = true) /\
  (status (getEnvStatusMessage supabaseUrl supabaseAnonKey) = status_success <->
     allValid (verifySupabaseEnv supabaseUrl supabaseAnonKey) = true) /\
  issues (getEnvStatusMessage supabaseUrl supabaseAnonKey) <> Some [].
Proof.
  split; [|split].
  - unfold verifySupabaseEnv. cbn [allValid].
    destruct supabaseUrl as [[|c url]|]; cbn [isSet default andb].
    + split; [done | intros (u & k & [= <-] & _ & _ & Hs & _); discriminate].
    + destruct supabaseAnonKey as [[|d key]|]; cbn [isSet andb].
      * split; [done | by intros (u & k & _ & [= <-] & Hk & _)].
      * rewrite andb_true_iff. split.
        -- intros [Hs Hi]. by exists (c :: url), (d :: key).
        -- by intros (u & k & [= <-] & _ & _ & Hs & Hi).
      * split; [done | intros (u & k & _ & [=] & _)].
    + split; [done | intros (u & k & [=] & _)].
  - unfold getEnvStatusMessage.
    destruct (allValid (verifySupabaseEnv supabaseUrl supabaseAnonKey));
      cbn [status]; by split.
  - unfold getEnvStatusMessage.
    destruct (allValid (verifySupabaseEnv supabaseUrl supabaseAnonKey)) eqn:Hall;
      cbn [issues]; [done|].
    unfold verifySupabaseEnv in *. cbn [allValid hasUrl hasAnonKey urlValid] in *.
    destruct (isSet supabaseUrl); cbn [negb andb app] in *; [|done].
    destruct (isSet supabaseAnonKey); cbn [negb andb app] in *; [|done].
    rewrite Hall. by cbn [negb].
Qed.

End Environment.
